(** * The sudo dispatcher of py.py: user store, command registry, dispatcher

    A shallow embedding of the authorization core of [py.py]
    ([hash_password], [UserStore], [CommandRegistry], [Dispatcher] and the
    built-in commands), followed by the properties established about it.

    Conventions of the embedding.
    - A Python [str] is a Rocq [string], read as the UTF-8 bytes of the text:
      the tokenizer, [join] and [split] only look for ASCII delimiters, and
      [encode] is then the identity.
    - A call that may raise returns a [result]: [Ok v] or [Raise e].
    - Dictionaries whose key order is observable ([UserStore.users], the
      registry) are insertion-ordered association lists; the session table,
      whose order is never observed, is a [gmap].
    - [time.time()] and [os.urandom(16)] are inputs of a call: [run] receives
      the clock reading [now] and the bytes [rnd] the generator would return.
      Clock readings and TTLs are exact integers: the rounding and the range of
      binary floating point are not modelled.
    - [UserStore.save] rewrites the JSON file from [self.users]; the file is
      identified with the dictionary, so [save] does not appear. *)

From Stdlib Require Import ZArith NArith String Ascii List Bool Lia.
From Stdlib Require Import DecimalString DecimalZ DecimalN.
From Stdlib.Strings Require Import Byte.
From stdpp Require Import base option list gmap strings.
Import ListNotations.

Local Open Scope string_scope.
Local Open Scope Z_scope.

(** ** Exceptions and results *)

(** An exception of class [Exception], the ones [except Exception] catches. *)
Inductive exn : Type :=
| ValueError (msg : string)
| TypeError (msg : string)
| OtherException (cls msg : string).

(** [str(e)] *)
Definition exn_str (e : exn) : string :=
  match e with
  | ValueError m | TypeError m | OtherException _ m => m
  end.

Inductive result (A : Type) : Type :=
| Ok (v : A)
| Raise (e : exn).
Arguments Ok {A} v.
Arguments Raise {A} e.

Definition bind {A B : Type} (r : result A) (k : A -> result B) : result B :=
  match r with
  | Ok v => k v
  | Raise e => Raise e
  end.

(** ** Strings *)

(** The double quote character. *)
Definition dquote : ascii := "034".

(** [sep.join(l)] *)
Definition join (sep : string) (l : list string) : string := String.concat sep l.

(** [s + c] for a single character [c] *)
Definition snoc (s : string) (c : ascii) : string := s ++ String c "".

(** [c in chars] *)
Fixpoint char_in (c : ascii) (chars : string) : bool :=
  match chars with
  | EmptyString => false
  | String d rest => Ascii.eqb c d || char_in c rest
  end.

(** [bool(s)]: a string is true when it is not empty. *)
Definition nonempty (s : string) : bool :=
  match s with
  | EmptyString => false
  | String _ _ => true
  end.

(** ** shlex.split, POSIX mode

    [shlex.split(s)] builds [shlex(s, posix=True)] with
    [whitespace_split = True] and [commenters = ''] and collects the tokens
    of [read_token] until it yields [None]. *)

Module shlex.

Definition whitespace : string :=
  String " " (String "009" (String "013" (String "010" ""))).
Definition quotes : string := String "'" (String dquote "").
Definition escape : ascii := "\".
Definition escapedquotes : ascii := dquote.

(** The lexer's [state] attribute: [' '], ['a'], a quote character, or the
    escape character together with [escapedstate], the state to return to
    (['a'], or the double quote). *)
Inductive state : Type :=
| Blank
| InWord
| Quoted (q : ascii)
| Escaped (escapedstate : state).

(** The list of tokens left to read from [s], where [token] and [quoted]
    are the variables of the pending [read_token] call. A token is
    delivered when [read_token] breaks with [token or quoted]. *)
Fixpoint tokens (s : string) (st : state) (token : string) (quoted : bool)
  : result (list string) :=
  match s with
  | EmptyString =>
      match st with
      | Blank | InWord =>
          Ok (if nonempty token || quoted then [token] else [])
      | Quoted _ => Raise (ValueError "No closing quotation")
      | Escaped _ => Raise (ValueError "No escaped character")
      end
  | String nextchar rest =>
      match st with
      | Blank =>
          if char_in nextchar whitespace then
            if nonempty token || quoted
            then bind (tokens rest Blank "" false) (fun l => Ok (token :: l))
            else tokens rest Blank token quoted
          else if Ascii.eqb nextchar escape then
            tokens rest (Escaped InWord) token quoted
          else if char_in nextchar quotes then
            tokens rest (Quoted nextchar) token quoted
          else
            tokens rest InWord (String nextchar "") quoted
      | InWord =>
          if char_in nextchar whitespace then
            if nonempty token || quoted
            then bind (tokens rest Blank "" false) (fun l => Ok (token :: l))
            else tokens rest Blank token quoted
          else if char_in nextchar quotes then
            tokens rest (Quoted nextchar) token quoted
          else if Ascii.eqb nextchar escape then
            tokens rest (Escaped InWord) token quoted
          else
            tokens rest InWord (snoc token nextchar) quoted
      | Quoted q =>
          if Ascii.eqb nextchar q then
            tokens rest InWord token true
          else if Ascii.eqb nextchar escape && Ascii.eqb q escapedquotes then
            tokens rest (Escaped (Quoted q)) token true
          else
            tokens rest (Quoted q) (snoc token nextchar) true
      | Escaped escapedstate =>
          let token' :=
            match escapedstate with
            | Quoted q =>
                if negb (Ascii.eqb nextchar escape) && negb (Ascii.eqb nextchar q)
                then snoc token escape else token
            | _ => token
            end in
          tokens rest escapedstate (snoc token' nextchar) quoted
      end
  end.

Definition split (s : string) : result (list string) :=
  tokens s Blank "" false.

End shlex.

(** ** int(s) and str(n)

    [int] on a string: surrounding whitespace is stripped, one sign is
    allowed, and the digits may be grouped by single underscores. Only the
    ASCII spellings are covered, and the interpreter's cap on the number of
    digits is not. [None] stands for the [ValueError]. *)

Definition int_whitespace : string :=
  String " " (String "009" (String "010" (String "011" (String "012" (String "013" ""))))).

Fixpoint lstrip (s : string) : string :=
  match s with
  | EmptyString => EmptyString
  | String c rest => if char_in c int_whitespace then lstrip rest else s
  end.

Fixpoint rstrip (s : string) : string :=
  match s with
  | EmptyString => EmptyString
  | String c rest =>
      match rstrip rest with
      | EmptyString => if char_in c int_whitespace then EmptyString else String c EmptyString
      | rest' => String c rest'
      end
  end.

Definition is_digit (c : ascii) : bool := char_in c "0123456789".

(** The digits of a literal without its underscores; [prev] tells whether the
    previous character was a digit. *)
Fixpoint ungroup (s : string) (prev : bool) : option string :=
  match s with
  | EmptyString => if prev then Some EmptyString else None
  | String c rest =>
      if is_digit c then option_map (String c) (ungroup rest true)
      else if Ascii.eqb c "_" && prev then ungroup rest false
      else None
  end.

Definition int_unsigned (s : string) : option Z :=
  match ungroup s false with
  | Some digits =>
      option_map (fun u => Z.of_N (N.of_uint u)) (NilEmpty.uint_of_string digits)
  | None => None
  end.

Definition int_ (s : string) : option Z :=
  match rstrip (lstrip s) with
  | String "-" body => option_map Z.opp (int_unsigned body)
  | String "+" body => int_unsigned body
  | body => int_unsigned body
  end.

(** [str(n)], also what an f-string prints for an [int] *)
Definition str_int (n : Z) : string := NilZero.string_of_int (Z.to_int n).

(** ** bytes.hex() and hashlib.sha256 *)

Definition hex_digit (n : N) : ascii :=
  match String.get (N.to_nat n) "0123456789abcdef" with
  | Some c => c
  | None => "0"
  end.

(** [b.hex()] *)
Definition hex (b : list byte) : string :=
  fold_right (fun x acc =>
      String (hex_digit (N.div (Byte.to_N x) 16))
        (String (hex_digit (N.modulo (Byte.to_N x) 16)) acc))
    EmptyString b.

(** [s.encode('utf-8')] *)
Definition encode (s : string) : list byte := list_byte_of_string s.

Module hashlib.

Definition w32 (x : Z) : Z := Z.land x 4294967295.
Definition rotr (n x : Z) : Z := Z.lor (Z.shiftr x n) (w32 (Z.shiftl x (32 - n))).
Definition Ch (x y z : Z) : Z :=
  Z.lxor (Z.land x y) (Z.land (Z.lxor x 4294967295) z).
Definition Maj (x y z : Z) : Z :=
  Z.lxor (Z.land x y) (Z.lxor (Z.land x z) (Z.land y z)).
Definition Sigma0 (x : Z) : Z := Z.lxor (rotr 2 x) (Z.lxor (rotr 13 x) (rotr 22 x)).
Definition Sigma1 (x : Z) : Z := Z.lxor (rotr 6 x) (Z.lxor (rotr 11 x) (rotr 25 x)).
Definition sigma0 (x : Z) : Z := Z.lxor (rotr 7 x) (Z.lxor (rotr 18 x) (Z.shiftr x 3)).
Definition sigma1 (x : Z) : Z := Z.lxor (rotr 17 x) (Z.lxor (rotr 19 x) (Z.shiftr x 10)).

Definition K : list Z :=
  [1116352408; 1899447441; 3049323471; 3921009573; 961987163; 1508970993;
   2453635748; 2870763221; 3624381080; 310598401; 607225278; 1426881987;
   1925078388; 2162078206; 2614888103; 3248222580; 3835390401; 4022224774;
   264347078; 604807628; 770255983; 1249150122; 1555081692; 1996064986;
   2554220882; 2821834349; 2952996808; 3210313671; 3336571891; 3584528711;
   113926993; 338241895; 666307205; 773529912; 1294757372; 1396182291;
   1695183700; 1986661051; 2177026350; 2456956037; 2730485921; 2820302411;
   3259730800; 3345764771; 3516065817; 3600352804; 4094571909; 275423344;
   430227734; 506948616; 659060556; 883997877; 958139571; 1322822218;
   1537002063; 1747873779; 1955562222; 2024104815; 2227730452; 2361852424;
   2428436474; 2756734187; 3204031479; 3329325298].

Definition H0 : list Z :=
  [1779033703; 3144134277; 1013904242; 2773480762;
   1359893119; 2600822924; 528734635; 1541459225].

(** The message followed by the bit 1, zeros, and its length in bits as a
    64-bit big-endian integer, a multiple of 64 bytes in all. *)
Definition be_bytes (width : nat) (x : Z) : list Z :=
  map (fun i => Z.land (Z.shiftr x (8 * Z.of_nat i)) 255) (rev (seq 0 width)).

Definition pad (msg : list Z) : list Z :=
  let len := Z.of_nat (length msg) in
  msg ++ [128] ++ repeat 0 (Z.to_nat ((55 - len) mod 64)) ++ be_bytes 8 (8 * len).

Fixpoint words (b : list Z) : list Z :=
  match b with
  | b3 :: b2 :: b1 :: b0 :: rest =>
      (Z.shiftl b3 24 + Z.shiftl b2 16 + Z.shiftl b1 8 + b0) :: words rest
  | _ => []
  end.

Definition word (w : list Z) (i : nat) : Z := nth i w 0.

Fixpoint schedule (n : nat) (w : list Z) : list Z :=
  match n with
  | O => w
  | S n' =>
      let t := length w in
      schedule n'
        (w ++ [w32 (sigma1 (word w (t - 2)) + word w (t - 7)
                    + sigma0 (word w (t - 15)) + word w (t - 16))])
  end.

Definition round (s : list Z) (kw : Z * Z) : list Z :=
  match s with
  | [a; b; c; d; e; f; g; h] =>
      let t1 := h + Sigma1 e + Ch e f g + fst kw + snd kw in
      let t2 := Sigma0 a + Maj a b c in
      [w32 (t1 + t2); a; b; c; w32 (d + t1); e; f; g]
  | _ => s
  end.

Definition compress (h : list Z) (block : list Z) : list Z :=
  let w := schedule 48 block in
  map (fun p => w32 (fst p + snd p))
      (combine h (fold_left round (combine K w) h)).

Fixpoint blocks (n : nat) (w : list Z) (h : list Z) : list Z :=
  match n with
  | O => h
  | S n' => blocks n' (skipn 16 w) (compress h (firstn 16 w))
  end.

(** [hashlib.sha256(msg).digest()] *)
Definition sha256 (msg : list byte) : list byte :=
  let w := words (pad (map (fun x => Z.of_N (Byte.to_N x)) msg)) in
  let h := blocks (Nat.div (length w) 16) w H0 in
  flat_map (fun x =>
      map (fun y => match Byte.of_N (Z.to_N y) with Some b => b | None => x00 end)
          (be_bytes 4 x)) h.

(** [hashlib.sha256(msg).hexdigest()] *)
Definition hexdigest (msg : list byte) : string := hex (sha256 msg).

End hashlib.

(** ** Dictionaries that remember insertion order *)

Definition odict (V : Type) : Type := list (string * V).

(** [d.get(k)] *)
Fixpoint dict_get {V : Type} (d : odict V) (k : string) : option V :=
  match d with
  | [] => None
  | (k', v) :: rest => if String.eqb k' k then Some v else dict_get rest k
  end.

(** [d[k] = v]: an existing key keeps its place, a new one goes last. *)
Fixpoint dict_set {V : Type} (d : odict V) (k : string) (v : V) : odict V :=
  match d with
  | [] => [(k, v)]
  | (k', v') :: rest =>
      if String.eqb k' k then (k, v) :: rest else (k', v') :: dict_set rest k v
  end.

(** [list(d.keys())] *)
Definition dict_keys {V : Type} (d : odict V) : list string := map fst d.

(** ** Utilidades *)

Definition hash_password (plain : string) (salt : option string) (rnd : list byte)
  : string :=
  let salt := match salt with
              | None => hex rnd          (* os.urandom(16).hex() *)
              | Some salt => salt
              end in
  let h := hashlib.hexdigest (encode (plain ++ salt)) in
  salt ++ "$" ++ h.

(** [s.split(sep)] for a one-character separator *)
Fixpoint str_split (sep : ascii) (s : string) : list string :=
  match s with
  | EmptyString => [EmptyString]
  | String c rest =>
      if Ascii.eqb c sep then EmptyString :: str_split sep rest
      else match str_split sep rest with
           | piece :: pieces => String c piece :: pieces
           | [] => [String c EmptyString]
           end
  end.

(** [a, b = l] *)
Definition unpack2 (l : list string) : result (string * string) :=
  match l with
  | [a; b] => Ok (a, b)
  | [] | [_] =>
      Raise (ValueError ("not enough values to unpack (expected 2, got "
                         ++ str_int (Z.of_nat (length l)) ++ ")"))
  | _ => Raise (ValueError "too many values to unpack (expected 2)")
  end.

(** ** Armazenamento de usuarios *)

(** One value of [UserStore.users]: the dictionary with the keys [perms] and
    [password]. It always has both keys, so it is never empty and
    [if not u] only tests whether the user is known. *)
Record account : Type := {
  perms : list string;
  password : option string
}.

Module UserStore.

Definition t : Type := odict account.

Definition ensure_user (us : t) (username : string) : t :=
  match dict_get us username with
  | Some _ => us
  | None => dict_set us username {| perms := []; password := None |}
  end.

(** [self.users[username]], after [ensure_user] *)
Definition the_account (us : t) (username : string) : account :=
  default {| perms := []; password := None |} (dict_get us username).

Definition set_password (us : t) (rnd : list byte) (username plain : string) : t :=
  let us := ensure_user us username in
  dict_set us username
    {| perms := perms (the_account us username);
       password := Some (hash_password plain None rnd) |}.

(** [ValueError] when the stored hash does not split in two at its dollar
    signs; with the salt given, [hash_password] draws no bytes. *)
Definition check_password (us : t) (username plain : string) : result bool :=
  match dict_get us username with
  | None => Ok false
  | Some u =>
      match password u with
      | None => Ok false
      | Some hp =>
          bind (unpack2 (str_split "$" hp)) (fun '(salt, hashed) =>
          Ok (String.eqb (hash_password plain (Some salt) []) hp))
      end
  end.

Definition add_perm (us : t) (username perm : string) : t :=
  let us := ensure_user us username in
  let u := the_account us username in
  if bool_decide (perm ∈ perms u) then us
  else dict_set us username
         {| perms := perms u ++ [perm]; password := password u |}.

(** [l.remove(x)]: the first occurrence goes. *)
Fixpoint list_remove (l : list string) (x : string) : list string :=
  match l with
  | [] => []
  | y :: rest => if String.eqb y x then rest else y :: list_remove rest x
  end.

Definition remove_perm (us : t) (username perm : string) : t :=
  let us := ensure_user us username in
  let u := the_account us username in
  if bool_decide (perm ∈ perms u)
  then dict_set us username
         {| perms := list_remove (perms u) perm; password := password u |}
  else us.

Definition has_perm (us : t) (username perm : string) : bool :=
  match dict_get us username with
  | None => false
  | Some u => bool_decide ("*" ∈ perms u) || bool_decide (perm ∈ perms u)
  end.

Definition list_users (us : t) : list string := dict_keys us.

Definition list_perms (us : t) (username : string) : list string :=
  match dict_get us username with
  | None => []
  | Some u => perms u
  end.

End UserStore.

(** ** Command registry *)

Record Context : Type := { user : string }.

(** What a handler reaches through the module globals: the names
    [registry.all_commands()] lists, and the bytes [os.urandom] yields to
    [hash_password]. *)
Record Env : Type := {
  all_commands : list string;
  urandom : list byte
}.

(** A registered function, called as [fn(ctx, *args)] with the store of the
    global [dispatcher]; it returns or raises, and leaves a store behind. *)
Definition handler : Type :=
  Context -> list string -> Env -> UserStore.t -> result string * UserStore.t.

Record entry : Type := {
  fn : handler;
  perm : option string
}.

Module CommandRegistry.

Definition t : Type := odict entry.

Definition register (cmds : t) (name : string) (f : handler)
    (required_perm : option string) : t :=
  dict_set cmds name {| fn := f; perm := required_perm |}.

Definition get (cmds : t) (name : string) : option entry := dict_get cmds name.

Definition all_commands (cmds : t) : list string := dict_keys cmds.

End CommandRegistry.

(** ** Calling a function with the wrong number of arguments

    [fn(ctx, *args)] raises [TypeError] when the positional arguments do not
    fit the parameters; the messages are the interpreter's. *)

Definition str_nat (n : nat) : string := str_int (Z.of_nat n).

Definition plural (n : nat) : string := if Nat.eqb n 1 then "" else "s".

Definition quoted_name (x : string) : string := "'" ++ x ++ "'".

Fixpoint name_list (names : list string) : string :=
  match names with
  | [] => ""
  | [x] => quoted_name x
  | [x; y] => quoted_name x ++ " and " ++ quoted_name y
  | x :: rest =>
      quoted_name x ++ ", " ++
      match rest with
      | [y; z] => quoted_name y ++ ", and " ++ quoted_name z
      | _ => name_list rest
      end
  end.

(** The error of calling [fname], whose parameters after [ctx] are
    [params], with [ctx] and [args]. *)
Definition arity_error (fname : string) (params args : list string) : exn :=
  if Nat.ltb (length args) (length params) then
    let missing := skipn (length args) params in
    TypeError (fname ++ "() missing " ++ str_nat (length missing)
               ++ " required positional argument" ++ plural (length missing)
               ++ ": " ++ name_list missing)
  else
    TypeError (fname ++ "() takes " ++ str_nat (S (length params))
               ++ " positional argument" ++ plural (S (length params))
               ++ " but " ++ str_nat (S (length args)) ++ " were given").

(** ** Comandos de administracao de exemplo *)

Definition cmd_grant : handler := fun ctx args env us =>
  match args with
  | [who; perm] =>
      let us := UserStore.add_perm us who perm in
      (Ok (user ctx ++ " granted '" ++ perm ++ "' to " ++ who), us)
  | _ => (Raise (arity_error "cmd_grant" ["who"; "perm"] args), us)
  end.

Definition cmd_revoke : handler := fun ctx args env us =>
  match args with
  | [who; perm] =>
      let us := UserStore.remove_perm us who perm in
      (Ok (user ctx ++ " revoked '" ++ perm ++ "' from " ++ who), us)
  | _ => (Raise (arity_error "cmd_revoke" ["who"; "perm"] args), us)
  end.

Definition cmd_whoami : handler := fun ctx args env us =>
  match args with
  | [] => (Ok ("you are " ++ user ctx), us)
  | _ => (Raise (arity_error "cmd_whoami" [] args), us)
  end.

Definition cmd_say : handler := fun ctx words env us =>
  (Ok (user ctx ++ " says: " ++ join " " words), us).

Definition cmd_echo : handler := fun ctx words env us =>
  (Ok (join " " words), us).

Definition cmd_list_users : handler := fun ctx args env us =>
  match args with
  | [] => (Ok (join ", " (UserStore.list_users us)), us)
  | _ => (Raise (arity_error "cmd_list_users" [] args), us)
  end.

Definition cmd_list_perms : handler := fun ctx args env us =>
  match args with
  | [who] => (Ok (join ", " (UserStore.list_perms us who)), us)
  | _ => (Raise (arity_error "cmd_list_perms" ["who"] args), us)
  end.

Definition cmd_create_user : handler := fun ctx args env us =>
  match args with
  | [who] =>
      let us := UserStore.ensure_user us who in
      (Ok ("user '" ++ who ++ "' created"), us)
  | _ => (Raise (arity_error "cmd_create_user" ["who"] args), us)
  end.

Definition cmd_change_password : handler := fun ctx args env us =>
  match args with
  | [who; new_plain] =>
      if negb (String.eqb who (user ctx))
         && negb (UserStore.has_perm us (user ctx) "change_others_password")
      then (Ok "no permission to change others' password", us)
      else
        let us := UserStore.set_password us (urandom env) who new_plain in
        (Ok ("password changed for " ++ who), us)
  | _ => (Raise (arity_error "cmd_change_password" ["who"; "new_plain"] args), us)
  end.

Definition cmd_add_perm : handler := fun ctx args env us =>
  match args with
  | [who; perm] =>
      let us := UserStore.add_perm us who perm in
      (Ok ("added '" ++ perm ++ "' to " ++ who), us)
  | _ => (Raise (arity_error "cmd_add_perm" ["who"; "perm"] args), us)
  end.

Definition cmd_remove_perm : handler := fun ctx args env us =>
  match args with
  | [who; perm] =>
      let us := UserStore.remove_perm us who perm in
      (Ok ("removed '" ++ perm ++ "' from " ++ who), us)
  | _ => (Raise (arity_error "cmd_remove_perm" ["who"; "perm"] args), us)
  end.

Definition cmd_list_commands : handler := fun ctx args env us =>
  match args with
  | [] => (Ok (join ", " (all_commands env)), us)
  | _ => (Raise (arity_error "cmd_list_commands" [] args), us)
  end.

(** The registry once the module is loaded: one [register] per [@command]
    decorator, in the order of the file. *)
Definition registry : CommandRegistry.t :=
  let r := [] in
  let r := CommandRegistry.register r "grant" cmd_grant (Some "grant") in
  let r := CommandRegistry.register r "revoke" cmd_revoke (Some "grant") in
  let r := CommandRegistry.register r "whoami" cmd_whoami None in
  let r := CommandRegistry.register r "say" cmd_say (Some "say") in
  let r := CommandRegistry.register r "echo" cmd_echo None in
  let r := CommandRegistry.register r "list_users" cmd_list_users (Some "admin") in
  let r := CommandRegistry.register r "list_perms" cmd_list_perms (Some "admin") in
  let r := CommandRegistry.register r "create_user" cmd_create_user (Some "admin") in
  let r := CommandRegistry.register r "change_password" cmd_change_password (Some "admin") in
  let r := CommandRegistry.register r "add_perm" cmd_add_perm (Some "admin") in
  let r := CommandRegistry.register r "remove_perm" cmd_remove_perm (Some "admin") in
  let r := CommandRegistry.register r "list_commands" cmd_list_commands None in
  r.

(** The registry once [BotCreatorOS.__init__] has run; [cmd_list_bots] and
    [cmd_reload_bots] are methods of the application window. *)
Definition registry_after_init (cmd_list_bots cmd_reload_bots : handler)
  : CommandRegistry.t :=
  let r := registry in
  let r := CommandRegistry.register r "list_bots" cmd_list_bots (Some "view") in
  let r := CommandRegistry.register r "reload_bots" cmd_reload_bots (Some "admin") in
  let r := CommandRegistry.register r "whoami" cmd_whoami None in
  let r := CommandRegistry.register r "grant" cmd_grant (Some "admin") in
  let r := CommandRegistry.register r "revoke" cmd_revoke (Some "admin") in
  let r := CommandRegistry.register r "say" cmd_say (Some "say") in
  let r := CommandRegistry.register r "echo" cmd_echo None in
  let r := CommandRegistry.register r "list_users" cmd_list_users (Some "admin") in
  let r := CommandRegistry.register r "list_perms" cmd_list_perms (Some "admin") in
  let r := CommandRegistry.register r "create_user" cmd_create_user (Some "admin") in
  let r := CommandRegistry.register r "change_password" cmd_change_password (Some "admin") in
  let r := CommandRegistry.register r "add_perm" cmd_add_perm (Some "admin") in
  let r := CommandRegistry.register r "remove_perm" cmd_remove_perm (Some "admin") in
  let r := CommandRegistry.register r "list_commands" cmd_list_commands None in
  r.

(** The users [BotCreatorOS.__init__] sets up in an empty store. *)
Definition default_users (rnd : list byte) : UserStore.t :=
  let us := [] in
  let us := UserStore.ensure_user us "admin" in
  let us := match password (UserStore.the_account us "admin") with
            | None => UserStore.set_password us rnd "admin" "adminpass"
            | Some _ => us
            end in
  let us := UserStore.add_perm us "admin" "*" in
  let us := UserStore.ensure_user us "guest" in
  let us := UserStore.add_perm us "guest" "view" in
  let us := UserStore.ensure_user us "alice" in
  let us := UserStore.add_perm us "alice" "say" in
  let us := UserStore.add_perm us "alice" "sudo" in
  let us := UserStore.ensure_user us "bob" in
  let us := UserStore.add_perm us "bob" "say" in
  us.

(** ** Dispatcher with sudo and impersonation *)

Inductive level : Type := INFO | ERROR.

(** The dispatcher: its user store, its impersonation sessions
    ([username -> (target_user, expires_at)]), and the lines it has sent to
    the audit log. *)
Record Dispatcher : Type := {
  users : UserStore.t;
  sessions : gmap string (string * Z);
  audit : list (level * string)
}.

Definition log (d : Dispatcher) (lvl : level) (msg : string) : Dispatcher :=
  {| users := users d; sessions := sessions d; audit := audit d ++ [(lvl, msg)] |}.

Definition with_users (d : Dispatcher) (us : UserStore.t) : Dispatcher :=
  {| users := us; sessions := sessions d; audit := audit d |}.

Definition with_sessions (d : Dispatcher) (ss : gmap string (string * Z)) : Dispatcher :=
  {| users := users d; sessions := ss; audit := audit d |}.

(** [l[i]], read only where [len(l) > i] has been tested *)
Definition item (l : list string) (i : nat) : string := nth i l "".

(** [bool(required)] for [required] a string or [None] *)
Definition truthy (required : option string) : bool :=
  match required with
  | Some r => nonempty r
  | None => false
  end.

(** [Dispatcher._execute_as], with the global [registry] as [reg]. The
    string returned and the dispatcher afterwards; [Raise] when
    [shlex.split] raises, which happens before the [try]. *)
Definition _execute_as (reg : CommandRegistry.t) (d : Dispatcher) (rnd : list byte)
    (target_user cmdline invoker : string) : result string * Dispatcher :=
  match shlex.split cmdline with
  | Raise e => (Raise e, d)
  | Ok [] => (Ok "no command", d)
  | Ok (name :: args) =>
      match CommandRegistry.get reg name with
      | None => (Ok ("unknown command '" ++ name ++ "'"), d)
      | Some entry =>
          let required := perm entry in
          if truthy required
             && negb (UserStore.has_perm (users d) target_user (default "" required))
          then (Ok ("user '" ++ target_user ++ "' lacks '" ++ default "" required
                    ++ "' permission"), d)
          else
            let ctx := {| user := target_user |} in
            let env := {| all_commands := CommandRegistry.all_commands reg;
                          urandom := rnd |} in
            match fn entry ctx args env (users d) with
            | (Ok result, us) =>
                (Ok result,
                 log (with_users d us) INFO
                   ("EXECUTE: invoker=" ++ invoker ++ " as=" ++ target_user
                    ++ " cmd='" ++ cmdline ++ "' -> OK"))
            | (Raise e, us) =>
                (Ok ("error: " ++ exn_str e),
                 log (with_users d us) ERROR
                   ("EXECUTE FAILED: invoker=" ++ invoker ++ " as=" ++ target_user
                    ++ " cmd='" ++ cmdline ++ "'"))
            end
      end
  end.

(** [Dispatcher.run], at the clock reading [now]. *)
Definition run (reg : CommandRegistry.t) (d : Dispatcher) (now : Z) (rnd : list byte)
    (invoker cmdline : string) : result string * Dispatcher :=
  match shlex.split cmdline with
  | Raise e => (Raise e, d)
  | Ok [] => (Ok "no command", d)
  | Ok parts =>
      if String.eqb (item parts 0) "sudo" then
        (* sudo -u <target> <command...> *)
        if Nat.leb 3 (length parts) && String.eqb (item parts 1) "-u" then
          let target := item parts 2 in
          if Nat.ltb (length parts) 4 then
            (Ok "usage: sudo -u <target> <command...>", d)
          else
            let command := join " " (skipn 3 parts) in
            if negb (UserStore.has_perm (users d) invoker "sudo") then
              (Ok ("invoker '" ++ invoker ++ "' lacks 'sudo' permission"), d)
            else
              let d := log d INFO ("SUDO: " ++ invoker ++ " -> " ++ target
                                   ++ ": " ++ command) in
              _execute_as reg d rnd target command invoker
        (* sudo -i -u <target> <seconds?> *)
        else if Nat.leb 4 (length parts) && String.eqb (item parts 1) "-i"
                && String.eqb (item parts 2) "-u" then
          let target := item parts 3 in
          let ttl :=
            if Nat.leb 5 (length parts)
            then default 300 (int_ (item parts 4))
            else 300 in
          if negb (UserStore.has_perm (users d) invoker "sudo") then
            (Ok ("invoker '" ++ invoker ++ "' lacks 'sudo' permission"), d)
          else
            let expires := now + ttl in
            let d := with_sessions d (<[invoker := (target, expires)]> (sessions d)) in
            let d := log d INFO ("SUDO_SESSION_START: " ++ invoker ++ " -> " ++ target
                                 ++ " for " ++ str_int ttl ++ "s") in
            (Ok ("impersonating " ++ target ++ " for " ++ str_int ttl ++ " seconds"), d)
        else
          (Ok "usage: sudo -u <target> <command...>  OR  sudo -i -u <target> [seconds]", d)
      else
        let normal (d : Dispatcher) :=
          let d := log d INFO ("CMD: " ++ invoker ++ ": " ++ cmdline) in
          _execute_as reg d rnd invoker cmdline invoker in
        match sessions d !! invoker with
        | Some (target, expires) =>
            if Z.ltb now expires then
              let d := log d INFO ("SUDO_SESSION_EXEC: invoker=" ++ invoker
                                   ++ " active_as=" ++ target ++ " cmd='"
                                   ++ cmdline ++ "'") in
              _execute_as reg d rnd target cmdline invoker
            else
              let d := with_sessions d (delete invoker (sessions d)) in
              let d := log d INFO ("SUDO_SESSION_END: invoker=" ++ invoker) in
              normal d
        | None => normal d
        end
  end.

(** ** Vocabulary of the statements *)

Fixpoint str_forall (P : ascii -> bool) (s : string) : bool :=
  match s with
  | EmptyString => true
  | String c rest => P c && str_forall P rest
  end.

(** A character the tokenizer copies as it is: no whitespace, no quote, no
    backslash. *)
Definition ordinary (c : ascii) : bool :=
  negb (char_in c shlex.whitespace) && negb (char_in c shlex.quotes)
  && negb (Ascii.eqb c shlex.escape).

(** A word that needs no quoting: not empty and made of ordinary characters. *)
Definition plain (w : string) : bool := nonempty w && str_forall ordinary w.

(** A character other than the separator of a stored hash. *)
Definition not_dollar (c : ascii) : bool := negb (Ascii.eqb c "$").

(** A dispatcher before its first command, over a given store. *)
Definition fresh (us : UserStore.t) : Dispatcher :=
  {| users := us; sessions := ∅; audit := [] |}.

(** What [_execute_as] makes of the handler's result or fault [r]: the string
    it returns and the line it logs. *)
Definition settled (d : Dispatcher) (target_user cmdline invoker : string)
    (r : result string * UserStore.t) : result string * Dispatcher :=
  match r with
  | (Ok result, us) =>
      (Ok result,
       log (with_users d us) INFO
         ("EXECUTE: invoker=" ++ invoker ++ " as=" ++ target_user
          ++ " cmd='" ++ cmdline ++ "' -> OK"))
  | (Raise e, us) =>
      (Ok ("error: " ++ exn_str e),
       log (with_users d us) ERROR
         ("EXECUTE FAILED: invoker=" ++ invoker ++ " as=" ++ target_user
          ++ " cmd='" ++ cmdline ++ "'"))
  end.

(** The call [entry['fn'](ctx, *args)] that [_execute_as] makes for
    [target_user]. *)
Definition call (reg : CommandRegistry.t) (e : entry) (d : Dispatcher)
    (rnd : list byte) (target_user : string) (args : list string)
  : result string * UserStore.t :=
  fn e {| user := target_user |} args
     {| all_commands := CommandRegistry.all_commands reg; urandom := rnd |} (users d).

(** Sixteen bytes, as [os.urandom(16)] may return them. *)
Definition sample_rnd : list byte :=
  [x3a; x91; x0c; xe7; x55; x20; xb8; x4d; xf1; x06; x7e; xc3; x18; xaa; x62; x9f].

(** [s] between double quotes *)
Definition in_quotes (s : string) : string := String dquote s ++ String dquote "".

(** ** More of the string runtime

    As for [int], only ASCII is covered: [lower] maps the letters A to Z and
    [strip] removes the ASCII characters for which [isspace] holds. Text made
    of ASCII characters ([is_ascii]) behaves exactly as modelled. *)

Definition is_ascii (s : string) : bool :=
  str_forall (fun c => Nat.ltb (nat_of_ascii c) 128) s.

Definition lower_char (c : ascii) : ascii :=
  let n := nat_of_ascii c in
  if Nat.leb 65 n && Nat.leb n 90 then ascii_of_nat (n + 32) else c.

(** [s.lower()] *)
Fixpoint lower (s : string) : string :=
  match s with
  | EmptyString => EmptyString
  | String c rest => String (lower_char c) (lower rest)
  end.

(** [needle in hay] *)
Fixpoint contains (needle hay : string) : bool :=
  String.prefix needle hay
  || match hay with
     | EmptyString => false
     | String _ rest => contains needle rest
     end.

Definition is_space (c : ascii) : bool :=
  let n := nat_of_ascii c in
  Nat.leb 9 n && Nat.leb n 13 || Nat.leb 28 n && Nat.leb n 32.

Fixpoint strip_left (s : string) : string :=
  match s with
  | EmptyString => EmptyString
  | String c rest => if is_space c then strip_left rest else s
  end.

Fixpoint strip_right (s : string) : string :=
  match s with
  | EmptyString => EmptyString
  | String c rest =>
      match strip_right rest with
      | EmptyString => if is_space c then EmptyString else String c EmptyString
      | rest' => String c rest'
      end
  end.

(** [s.strip()] *)
Definition strip (s : string) : string := strip_right (strip_left s).

(** [random.choice(seq)]; [draw] is what the generator yields, reduced to an
    index of [seq]. *)
Definition choice (seq : list string) (draw : nat) : result string :=
  match seq with
  | [] => Raise (OtherException "IndexError" "Cannot choose from an empty sequence")
  | _ => Ok (nth (Nat.modulo draw (length seq)) seq "")
  end.

(** ** AIEngine *)

Module AIEngine.

Record t : Type := {
  responses : odict (list string);
  learned_responses : gmap string string;
  context_memory : list string
}.

(** [AIEngine.__init__] *)
Definition init : t :=
  {| responses :=
       [("greeting", ["Hello! How can I assist you today?"; "Hi! What's on your mind?";
                      "Hey! Ready to create some bots?"]);
        ("goodbye", ["Goodbye! Come back soon!"; "See you later! Happy coding!";
                     "Bye! Don't forget to save your bots!"]);
        ("thanks", ["You're welcome! Always here to help."; "No problem at all!";
                    "Happy to be of service!"]);
        ("help", ["I can help with bot creation, AI responses, and more. What do you need?";
                  "How can I assist with your bot project?"]);
        ("unknown", ["Hmm, not sure about that one. Can you elaborate?";
                     "Interesting! Tell me more."; "That's a new one for me."])];
     learned_responses := ∅;
     context_memory := [] |}.

Definition _get_response (self : t) (category : string) (draw : nat)
  : result string :=
  let responses := default ["I understand."] (dict_get (responses self) category) in
  choice responses draw.

(** [any(word in message_lower for word in words)] *)
Definition any_in (words : list string) (message_lower : string) : bool :=
  existsb (fun word => contains word message_lower) words.

Definition generate_response (self : t) (message : string) (draw : nat)
  : result string * t :=
  let memory := (context_memory self ++ [message])%list in
  let memory := if Nat.ltb 10 (length memory) then tail memory else memory in
  let self := {| responses := responses self;
                 learned_responses := learned_responses self;
                 context_memory := memory |} in
  let message_lower := lower message in
  if any_in ["hello"; "hi"; "hey"] message_lower then
    (_get_response self "greeting" draw, self)
  else if any_in ["bye"; "goodbye"; "see you"] message_lower then
    (_get_response self "goodbye" draw, self)
  else if any_in ["thank"; "thanks"] message_lower then
    (_get_response self "thanks" draw, self)
  else if any_in ["help"; "assist"] message_lower then
    (_get_response self "help" draw, self)
  else
    match learned_responses self !! message_lower with
    | Some answer => (Ok answer, self)
    | None => (_get_response self "unknown" draw, self)
    end.

(** The engine afterwards and the line sent to [logging.info]. *)
Definition learn_response (self : t) (input_text output_text : string)
  : t * (level * string) :=
  ({| responses := responses self;
      learned_responses := <[lower input_text := output_text]> (learned_responses self);
      context_memory := context_memory self |},
   (INFO, "AI learned new response: " ++ input_text ++ " -> " ++ output_text)).

End AIEngine.

(** ** The sudo console of BotCreatorOS

    The part of the window that [sudo_login] and [sudo_execute] read and
    write: the dispatcher, the user logged in, the status label (text and
    colour), the text of the output box, the text of the command entry, and
    the message boxes shown so far. *)

Inductive messagebox : Type :=
| showinfo (title message : string)
| showerror (title message : string)
| showwarning (title message : string).

Record BotCreatorOS : Type := {
  dispatcher : Dispatcher;
  current_user : option string;
  sudo_status : string * string;
  sudo_output : string;
  sudo_command : string;
  boxes : list messagebox
}.

(** The line feed of the f-strings. *)
Definition nl : string := String "010" "".

(** [sudo_login], with the texts of the two entries. [Raise] when
    [check_password] raises. *)
Definition sudo_login (self : BotCreatorOS) (sudo_username sudo_password : string)
  : result BotCreatorOS :=
  let username := strip sudo_username in
  let password := sudo_password in
  bind (UserStore.check_password (users (dispatcher self)) username password)
    (fun ok =>
       if ok then
         Ok {| dispatcher := dispatcher self;
               current_user := Some username;
               sudo_status := ("Logged in as " ++ username, "green");
               sudo_output := sudo_output self;
               sudo_command := sudo_command self;
               boxes := (boxes self
                         ++ [showinfo "Success" ("Logged in as " ++ username)])%list |}
       else
         Ok {| dispatcher := dispatcher self;
               current_user := current_user self;
               sudo_status := ("Invalid credentials", "red");
               sudo_output := sudo_output self;
               sudo_command := sudo_command self;
               boxes := (boxes self
                         ++ [showerror "Error" "Invalid username or password"])%list |}).

(** [sudo_execute]: what the call returns or raises, and the window
    afterwards. When [run] raises nothing is shown, and the dispatcher keeps
    what [run] did before. *)
Definition sudo_execute (reg : CommandRegistry.t) (self : BotCreatorOS) (now : Z)
    (rnd : list byte) : result unit * BotCreatorOS :=
  if negb (truthy (current_user self)) then
    (Ok tt,
     {| dispatcher := dispatcher self;
        current_user := current_user self;
        sudo_status := sudo_status self;
        sudo_output := sudo_output self;
        sudo_command := sudo_command self;
        boxes := (boxes self ++ [showwarning "Warning" "Please login first!"])%list |})
  else
    let command := strip (sudo_command self) in
    if negb (nonempty command) then (Ok tt, self)
    else
      match run reg (dispatcher self) now rnd (default "" (current_user self)) command with
      | (Raise e, d) =>
          (Raise e,
           {| dispatcher := d;
              current_user := current_user self;
              sudo_status := sudo_status self;
              sudo_output := sudo_output self;
              sudo_command := sudo_command self;
              boxes := boxes self |})
      | (Ok output, d) =>
          (Ok tt,
           {| dispatcher := d;
              current_user := current_user self;
              sudo_status := sudo_status self;
              sudo_output := sudo_output self ++ "> " ++ command ++ nl ++ output
                             ++ nl ++ nl;
              sudo_command := "";
              boxes := boxes self |})
      end.

(** ** str.format with keyword arguments only

    [template.format(token=..., prefix=...)] is a call without positional
    arguments whose values are strings.  The scan is the one of CPython's
    [MarkupIterator_next] and [parse_field]: doubled braces are literal
    braces, a field name runs to the first closing brace, colon or
    exclamation mark outside square brackets, and a format specification
    counts the braces nested in it.  A field whose name starts with a key
    of [kwargs] and has nothing else is replaced by the value; a field that
    is empty or numeric asks for a positional argument, and there is none;
    a name that is not a key raises [KeyError], whose text is the [repr] of
    the name. *)

Module str_format.

Inductive state : Type :=
| Text
| Open
| Close
| Name (name : string) (bracket : bool)
| Conv0 (name : string)
| Conv1 (name : string) (conv : ascii)
| Spec (name : string) (conv : option ascii) (spec : string) (count : nat).

(** [repr(s)] of a string of ASCII text *)
Definition repr_char (quote c : ascii) : string :=
  let n := nat_of_ascii c in
  if Ascii.eqb c quote || Ascii.eqb c "\" then String "\" (String c "")
  else if Nat.eqb n 9 then "\t"
  else if Nat.eqb n 10 then "\n"
  else if Nat.eqb n 13 then "\r"
  else if Nat.ltb n 32 || Nat.eqb n 127 then
    "\x" ++ String (hex_digit (N.of_nat (n / 16))) (String (hex_digit (N.of_nat (n mod 16))) "")
  else String c "".

Fixpoint repr_body (quote : ascii) (s : string) : string :=
  match s with
  | EmptyString => EmptyString
  | String c rest => repr_char quote c ++ repr_body quote rest
  end.

Definition repr (s : string) : string :=
  let quote := if char_in "'" s && negb (char_in dquote s) then dquote else "'"%char in
  String quote (repr_body quote s) ++ String quote "".

(** The field name up to its first dot or bracket, and what follows. *)
Fixpoint split_first (name : string) : string * string :=
  match name with
  | EmptyString => (EmptyString, EmptyString)
  | String c rest =>
      if Ascii.eqb c "." || Ascii.eqb c "[" then (EmptyString, name)
      else let (first, more) := split_first rest in (String c first, more)
  end.

(** [get_integer]: the index a string of digits spells, [None] past the
    largest index of a 64-bit build. *)
Fixpoint get_integer (s : string) (accumulator : N) : option N :=
  match s with
  | EmptyString => Some accumulator
  | String c rest =>
      let digitval := N.of_nat (nat_of_ascii c - 48) in
      if N.ltb (N.div (9223372036854775807 - digitval) 10) accumulator then None
      else get_integer rest (accumulator * 10 + digitval)
  end.

Definition index_error (n : N) : exn :=
  OtherException "IndexError"
    ("Replacement index " ++ str_int (Z.of_N n)
     ++ " out of range for positional args tuple").

(** One replacement field, for a call without positional arguments.
    [render] stands for what [format] does with a value that was found when
    the field has an attribute or index, a conversion or a format
    specification. *)
Definition field (kwargs : odict string)
    (render : string -> string -> option ascii -> string -> result string)
    (name : string) (conv : option ascii) (spec : string) : result string :=
  let (first, rest) := split_first name in
  if negb (nonempty first) then Raise (index_error 0)
  else if str_forall is_digit first then
    match get_integer first 0 with
    | Some n => Raise (index_error n)
    | None => Raise (ValueError "Too many decimal digits in format string")
    end
  else
    match dict_get kwargs first with
    | None => Raise (OtherException "KeyError" (repr first))
    | Some value =>
        match rest, conv, spec with
        | EmptyString, None, EmptyString => Ok value
        | _, _, _ => render value rest conv spec
        end
    end.

(** The scan of [MarkupIterator_next] and [parse_field], with the text
    produced so far in [out]. *)
Fixpoint scan (kwargs : odict string)
    (render : string -> string -> option ascii -> string -> result string)
    (s : string) (st : state) (out : string) : result string :=
  match s with
  | EmptyString =>
      match st with
      | Text => Ok out
      | Open => Raise (ValueError "Single '{' encountered in format string")
      | Close => Raise (ValueError "Single '}' encountered in format string")
      | Name _ _ => Raise (ValueError "expected '}' before end of string")
      | Conv0 _ =>
          Raise (ValueError "end of string while looking for conversion specifier")
      | Conv1 _ _ | Spec _ _ _ _ => Raise (ValueError "unmatched '{' in format spec")
      end
  | String c rest =>
      let finish name conv spec :=
        bind (field kwargs render name conv spec)
          (fun text => scan kwargs render rest Text (out ++ text)) in
      match st with
      | Text =>
          if Ascii.eqb c "{" then scan kwargs render rest Open out
          else if Ascii.eqb c "}" then scan kwargs render rest Close out
          else scan kwargs render rest Text (snoc out c)
      | Open =>
          if Ascii.eqb c "{" then scan kwargs render rest Text (snoc out c)
          else if Ascii.eqb c "[" then scan kwargs render rest (Name (String c "") true) out
          else if Ascii.eqb c "}" then finish "" None ""
          else if Ascii.eqb c ":" then scan kwargs render rest (Spec "" None "" 1) out
          else if Ascii.eqb c "!" then scan kwargs render rest (Conv0 "") out
          else scan kwargs render rest (Name (String c "") false) out
      | Close =>
          if Ascii.eqb c "}" then scan kwargs render rest Text (snoc out c)
          else Raise (ValueError "Single '}' encountered in format string")
      | Name name true =>
          scan kwargs render rest (Name (snoc name c) (negb (Ascii.eqb c "]"))) out
      | Name name false =>
          if Ascii.eqb c "{" then Raise (ValueError "unexpected '{' in field name")
          else if Ascii.eqb c "[" then scan kwargs render rest (Name (snoc name c) true) out
          else if Ascii.eqb c "}" then finish name None ""
          else if Ascii.eqb c ":" then scan kwargs render rest (Spec name None "" 1) out
          else if Ascii.eqb c "!" then scan kwargs render rest (Conv0 name) out
          else scan kwargs render rest (Name (snoc name c) false) out
      | Conv0 name => scan kwargs render rest (Conv1 name c) out
      | Conv1 name conv =>
          if Ascii.eqb c "}" then finish name (Some conv) ""
          else if Ascii.eqb c ":" then scan kwargs render rest (Spec name (Some conv) "" 1) out
          else Raise (ValueError "expected ':' after conversion specifier")
      | Spec name conv spec count =>
          if Ascii.eqb c "{" then
            scan kwargs render rest (Spec name conv (snoc spec c) (S count)) out
          else if Ascii.eqb c "}" then
            match count with
            | 1%nat => finish name conv spec
            | _ => scan kwargs render rest (Spec name conv (snoc spec c) (pred count)) out
            end
          else scan kwargs render rest (Spec name conv (snoc spec c) count) out
      end
  end.

(** [template.format] with keyword arguments only *)
Definition format (kwargs : odict string)
    (render : string -> string -> option ascii -> string -> result string)
    (template : string) : result string :=
  scan kwargs render template Text "".

End str_format.

(** ** DiscordBotCreator

    The texts are those of the source, cut at every double quote and joined
    by it again.  [features] is a list of names; [bot_name] is not used by
    the source either. *)

Module DiscordBotCreator.

Definition template : string :=
  join (String dquote "")
  ["import discord
from discord.ext import commands
import asyncio
import logging

# Bot configuration
BOT_TOKEN = ";
   "{token}";
   "
COMMAND_PREFIX = ";
   "{prefix}";
   "

# Setup logging
logging.basicConfig(level=logging.INFO)

# Create bot instance
intents = discord.Intents.default()
intents.message_content = True
intents.members = True
intents.guilds = True
bot = commands.Bot(command_prefix=COMMAND_PREFIX, intents=intents)

@bot.event
async def on_ready():
    logging.info(f";
   "{bot.user} has connected to Discord!";
   ")
    logging.info(f";
   "Bot is in {len(bot.guilds)} servers";
   ")
    await bot.change_presence(activity=discord.Game(name=";
   "Created with BotCreator OS v3";
   "))

@bot.event
async def on_message(message):
    if message.author == bot.user:
        return
    
    # Custom message processing
    await bot.process_commands(message)

@bot.command(name=";
   "ping";
   ")
async def ping(ctx):
    ";
   "";
   "";
   "Check bot latency";
   "";
   "";
   "
    latency = round(bot.latency * 1000)
    await ctx.send(f";
   "Pong! Latency: {latency}ms";
   ")

@bot.command(name=";
   "info";
   ")
async def info(ctx):
    ";
   "";
   "";
   "Get bot information";
   "";
   "";
   "
    embed = discord.Embed(
        title=";
   "Bot Information";
   ",
        description=";
   "Created with BotCreator OS v3";
   ",
        color=0x00ff00
    )
    embed.add_field(name=";
   "Servers";
   ", value=len(bot.guilds), inline=True)
    embed.add_field(name=";
   "Latency";
   ", value=f";
   "{round(bot.latency * 1000)}ms";
   ", inline=True)
    await ctx.send(embed=embed)

# Run the bot
if __name__ == ";
   "__main__";
   ":
    try:
        bot.run(BOT_TOKEN)
    except Exception as e:
        logging.error(f";
   "Error running bot: {e}";
   ")
"].

Definition get_moderation_commands : string :=
  join (String dquote "")
  ["
# Enhanced Moderation Commands
@bot.command(name=";
   "kick";
   ")
@commands.has_permissions(kick_members=True)
async def kick(ctx, member: discord.Member, *, reason=";
   "No reason provided";
   "):
    await member.kick(reason=reason)
    await ctx.send(f";
   "{member.mention} has been kicked for: {reason}";
   ")

@bot.command(name=";
   "ban";
   ")
@commands.has_permissions(ban_members=True)
async def ban(ctx, member: discord.Member, *, reason=";
   "No reason provided";
   "):
    await member.ban(reason=reason)
    await ctx.send(f";
   "{member.mention} has been banned for: {reason}";
   ")

@bot.command(name=";
   "mute";
   ")
@commands.has_permissions(manage_roles=True)
async def mute(ctx, member: discord.Member, duration: int = 60, *, reason=";
   "No reason";
   "):
    mute_role = discord.utils.get(ctx.guild.roles, name=";
   "Muted";
   ")
    if not mute_role:
        mute_role = await ctx.guild.create_role(name=";
   "Muted";
   ")
        for channel in ctx.guild.channels:
            await channel.set_permissions(mute_role, speak=False, send_messages=False)
    await member.add_roles(mute_role, reason=reason)
    await ctx.send(f";
   "{member.mention} has been muted for {duration} minutes.";
   ")
    await asyncio.sleep(duration * 60)
    await member.remove_roles(mute_role)
    await ctx.send(f";
   "{member.mention} has been unmuted.";
   ")
"].

Definition get_music_commands : string :=
  join (String dquote "")
  ["
# Music Commands (requires discord.py[voice], yt-dlp)
import yt_dlp as youtube_dl

@bot.command(name=";
   "join";
   ")
async def join(ctx):
    if ctx.author.voice:
        channel = ctx.author.voice.channel
        await channel.connect()
        await ctx.send(f";
   "Joined {channel}";
   ")
    else:
        await ctx.send(";
   "You need to be in a voice channel!";
   ")

@bot.command(name=";
   "leave";
   ")
async def leave(ctx):
    if ctx.voice_client:
        await ctx.voice_client.disconnect()
        await ctx.send(";
   "Disconnected from voice channel";
   ")

@bot.command(name=";
   "play";
   ")
async def play(ctx, url):
    if not ctx.voice_client:
        await join(ctx)
    
    ydl_opts = {'format': 'bestaudio'}
    with youtube_dl.YoutubeDL(ydl_opts) as ydl:
        info = ydl.extract_info(url, download=False)
        URL = info['formats'][0]['url']
    
    ctx.voice_client.play(discord.FFmpegPCMAudio(URL, **{'before_options': '-reconnect 1 -reconnect_streamed 1 -reconnect_delay_max 5', 'options': '-vn'}))
    await ctx.send(f";
   "Playing: {info['title']}";
   ")
"].

Definition get_ai_chat_commands : string :=
  join (String dquote "")
  ["
# Enhanced AI Chat Integration
@bot.command(name=";
   "chat";
   ")
async def ai_chat(ctx, *, message):
    ";
   "";
   "";
   "Chat with AI";
   "";
   "";
   "
    # Integrate with parent AI engine
    response = self.parent.ai_engine.generate_response(message)
    await ctx.send(response)
    
@bot.command(name=";
   "learn";
   ")
async def ai_learn(ctx, input_text, *, output_text):
    ";
   "";
   "";
   "Teach the AI new responses";
   "";
   "";
   "
    self.parent.ai_engine.learn_response(input_text, output_text)
    await ctx.send(";
   "AI has learned the new response!";
   ")
"].

Definition get_game_commands : string :=
  join (String dquote "")
  ["
# Game Commands
@bot.command(name=";
   "rps";
   ")
async def rps(ctx, choice: str):
    ";
   "";
   "";
   "Play Rock Paper Scissors";
   "";
   "";
   "
    choices = [";
   "rock";
   ", ";
   "paper";
   ", ";
   "scissors";
   "]
    bot_choice = random.choice(choices)
    if choice.lower() not in choices:
        await ctx.send(";
   "Invalid choice! Use rock, paper, or scissors.";
   ")
        return
    
    if choice.lower() == bot_choice:
        result = ";
   "It's a tie!";
   "
    elif (choice.lower() == ";
   "rock";
   " and bot_choice == ";
   "scissors";
   ") or          (choice.lower() == ";
   "paper";
   " and bot_choice == ";
   "rock";
   ") or          (choice.lower() == ";
   "scissors";
   " and bot_choice == ";
   "paper";
   "):
        result = ";
   "You win!";
   "
    else:
        result = ";
   "I win!";
   "
    
    await ctx.send(f";
   "You chose {choice}, I chose {bot_choice}. {result}";
   ")
    
@bot.command(name=";
   "guess";
   ")
async def guess(ctx, number: int):
    ";
   "";
   "";
   "Guess the number game";
   "";
   "";
   "
    secret = random.randint(1, 100)
    if number == secret:
        await ctx.send(";
   "Correct! You guessed the secret number!";
   ")
    elif number < secret:
        await ctx.send(";
   "Too low! Try a higher number.";
   ")
    else:
        await ctx.send(";
   "Too high! Try a lower number.";
   ")
"].

Definition get_utility_commands : string :=
  join (String dquote "")
  ["
# Utility Commands
@bot.command(name=";
   "poll";
   ")
async def poll(ctx, question: str, *options: str):
    ";
   "";
   "";
   "Create a poll";
   "";
   "";
   "
    if len(options) < 2:
        await ctx.send(";
   "Need at least 2 options for a poll!";
   ")
        return
    poll_message = f";
   "**Poll: {question}**
";
   "
    for i, option in enumerate(options, 1):
        poll_message += f";
   "{i}️⃣ {option}
";
   "
    message = await ctx.send(poll_message)
    for i in range(1, len(options) + 1):
        await message.add_reaction(f";
   "{i}⃣";
   ")

@bot.command(name=";
   "remind";
   ")
async def remind(ctx, time: int, *, reminder: str):
    ";
   "";
   "";
   "Set a reminder in minutes";
   "";
   "";
   "
    await ctx.send(f";
   "Reminder set for {time} minutes: {reminder}";
   ")
    await asyncio.sleep(time * 60)
    await ctx.send(f";
   "{ctx.author.mention} Reminder: {reminder}";
   ")
"].

Definition create_discord_bot
    (render : string -> string -> option ascii -> string -> result string)
    (bot_name prefix token : string) (features : list string) : result string :=
  bind (str_format.format [("token", token); ("prefix", prefix)] render template)
    (fun code =>
  let code :=
    if existsb (String.eqb "moderation") features
    then code ++ get_moderation_commands else code in
  let code :=
    if existsb (String.eqb "music") features
    then code ++ get_music_commands else code in
  let code :=
    if existsb (String.eqb "ai_chat") features
    then code ++ get_ai_chat_commands else code in
  let code :=
    if existsb (String.eqb "games") features
    then code ++ get_game_commands else code in
  let code :=
    if existsb (String.eqb "utility") features
    then code ++ get_utility_commands else code in
  Ok code).

End DiscordBotCreator.

(** ** Further vocabulary *)

(** A command line made of the tokenizer's whitespace only. *)
Definition blank (s : string) : bool :=
  str_forall (fun c => char_in c shlex.whitespace) s.

(** A handler under which no user disappears or changes place: the names of
    the store before are the first names of the store after. *)
Definition keeps_users (h : handler) : Prop :=
  forall ctx args env us, dict_keys us `prefix_of` dict_keys (snd (h ctx args env us)).

(** A store as its own operations build it: no user name twice, and no
    permission twice in a list. *)
Definition wf_store (us : UserStore.t) : Prop :=
  NoDup (dict_keys us) /\ forall u, NoDup (UserStore.list_perms us u).

(** A handler that keeps stores well formed. *)
Definition keeps_wf (h : handler) : Prop :=
  forall ctx args env us, wf_store us -> wf_store (snd (h ctx args env us)).

(** The hash on record for a user, if the user is known and has one. *)
Definition stored_password (us : UserStore.t) (username : string) : option string :=
  match dict_get us username with
  | Some u => password u
  | None => None
  end.

(** The words [generate_response] looks for, in the order of its tests. *)
Definition keywords : list string :=
  ["hello"; "hi"; "hey"; "bye"; "goodbye"; "see you"; "thank"; "thanks"; "help"; "assist"].

(** The answers of a category in the table of [AIEngine.__init__]. *)
Definition canned (category : string) : list string :=
  default [] (dict_get (AIEngine.responses AIEngine.init) category).

(** The window once the user has typed [text] into the command entry. *)
Definition type_command (self : BotCreatorOS) (text : string) : BotCreatorOS :=
  {| dispatcher := dispatcher self;
     current_user := current_user self;
     sudo_status := sudo_status self;
     sudo_output := sudo_output self;
     sudo_command := text;
     boxes := boxes self |}.

(** The window at start, over a dispatcher: nobody logged in. *)
Definition window (d : Dispatcher) : BotCreatorOS :=
  {| dispatcher := d;
     current_user := None;
     sudo_status := ("Not logged in", "orange");
     sudo_output := "";
     sudo_command := "";
     boxes := [] |}.


(** * Properties *)

(** ** Test vectors of the runtime model *)

Example shlex_hello :
  shlex.split ("say " ++ in_quotes "hello world") = Ok ["say"; "hello world"].
Proof. reflexivity. Qed.

Example shlex_blank : shlex.split "   " = Ok [].
Proof. reflexivity. Qed.

Example shlex_apostrophe : shlex.split "it's" = Raise (ValueError "No closing quotation").
Proof. reflexivity. Qed.

Example shlex_trailing_backslash :
  shlex.split "x\" = Raise (ValueError "No escaped character").
Proof. reflexivity. Qed.

Example shlex_adjacent : shlex.split "a'b c'd ''" = Ok ["ab cd"; ""].
Proof. reflexivity. Qed.

Example int_examples :
  map int_ [" 5 "; "+5"; "-0"; "1_0"; "007"; "1__0"; "_1"; "- 5"; "5.0"; ""]
  = [Some 5; Some 5; Some 0; Some 10; Some 7; None; None; None; None; None].
Proof. reflexivity. Qed.

Example str_int_examples : map str_int [0; 300; -5] = ["0"; "300"; "-5"].
Proof. reflexivity. Qed.

Example sha256_abc :
  hashlib.hexdigest (encode "abc")
  = "ba7816bf8f01cfea414140de5dae2223b00361a396177a9cb410ff61f20015ad".
Proof. vm_compute. reflexivity. Qed.

Example sha256_two_blocks :
  hashlib.hexdigest (encode "aaaaaaaaaaaaaaaaaaaaaaaaaaaaaaaaaaaaaaaaaaaaaaaaaaaaaaaa")
  = "b35439a4ac6f0948b6d6f9e3c6af0f5f590ce20f1bde7090ef7970686ec6738a".
Proof. vm_compute. reflexivity. Qed.

Example arity_examples :
  map exn_str [arity_error "cmd_grant" ["who"; "perm"] [];
               arity_error "cmd_grant" ["who"; "perm"] ["bob"];
               arity_error "cmd_whoami" [] ["x"]]
  = ["cmd_grant() missing 2 required positional arguments: 'who' and 'perm'";
     "cmd_grant() missing 1 required positional argument: 'perm'";
     "cmd_whoami() takes 1 positional argument but 2 were given"].
Proof. reflexivity. Qed.

(** ** Strings and tokens *)

Lemma append_cons (c : ascii) (s t : string) : String c s ++ t = String c (s ++ t).
Proof. reflexivity. Qed.

Lemma append_nil_l (s : string) : "" ++ s = s.
Proof. reflexivity. Qed.

Lemma append_nil_r (s : string) : s ++ "" = s.
Proof. induction s as [|c s IH]; [reflexivity | now rewrite append_cons, IH]. Qed.

Lemma append_assoc (a b c : string) : (a ++ b) ++ c = a ++ (b ++ c).
Proof. induction a as [|x a IH]; [reflexivity | now rewrite !append_cons, IH]. Qed.

Lemma ordinary_inv (c : ascii) :
  ordinary c = true ->
  char_in c shlex.whitespace = false /\ char_in c shlex.quotes = false
  /\ Ascii.eqb c shlex.escape = false.
Proof.
  unfold ordinary. rewrite !andb_true_iff, !negb_true_iff. tauto.
Qed.

(** Inside a word, ordinary characters are appended to the token. *)
Lemma tokens_word (w rest tok : string) (q : bool) :
  str_forall ordinary w = true ->
  shlex.tokens (w ++ rest) shlex.InWord tok q = shlex.tokens rest shlex.InWord (tok ++ w) q.
Proof.
  revert tok. induction w as [|c w IH]; intros tok H.
  - now rewrite append_nil_r.
  - cbn [str_forall] in H. apply andb_true_iff in H as [Hc Hw].
    destruct (ordinary_inv c Hc) as (Hws & Hq & He).
    rewrite append_cons. cbn [shlex.tokens]. rewrite Hws, Hq, He.
    rewrite (IH _ Hw). unfold snoc. now rewrite append_assoc.
Qed.

(** A plain word at the start of a token is read to its end. *)
Lemma tokens_plain (w rest : string) :
  plain w = true ->
  shlex.tokens (w ++ rest) shlex.Blank "" false = shlex.tokens rest shlex.InWord w false.
Proof.
  unfold plain. destruct w as [|c w]; [discriminate|].
  cbn [nonempty str_forall orb andb]. intros H.
  apply andb_true_iff in H as [Hc Hw].
  destruct (ordinary_inv c Hc) as (Hws & Hq & He).
  rewrite append_cons. cbn [shlex.tokens]. rewrite Hws, Hq, He.
  now rewrite (tokens_word w rest _ _ Hw).
Qed.

Lemma plain_nonempty (w : string) : plain w = true -> nonempty w = true.
Proof. unfold plain. now intros [H _]%andb_true_iff. Qed.

(** Plain words joined by single spaces are split back into themselves. *)
Lemma split_join_plain (ws : list string) :
  Forall (fun w => plain w = true) ws ->
  shlex.split (join " " ws) = Ok ws.
Proof.
  unfold shlex.split, join.
  induction 1 as [|w ws Hw Hws IH]; [reflexivity|].
  destruct ws as [|w' ws].
  - change (String.concat " " [w]) with w.
    rewrite <- (append_nil_r w) at 1. rewrite (tokens_plain _ _ Hw).
    cbn [shlex.tokens]. now rewrite (plain_nonempty _ Hw).
  - change (String.concat " " (w :: w' :: ws))
      with (w ++ String " " (String.concat " " (w' :: ws))).
    rewrite (tokens_plain _ _ Hw).
    cbn [shlex.tokens]. change (char_in " " shlex.whitespace) with true. cbn iota.
    rewrite (plain_nonempty _ Hw). cbn [orb]. now rewrite IH.
Qed.

(** ** The dispatch boundary *)

Section Dispatch.

Variable reg : CommandRegistry.t.
Variables (d : Dispatcher) (rnd : list byte).
Variables target_user cmdline invoker : string.

(** No handler can reach the session table. *)
Lemma execute_as_sessions :
  sessions (snd (_execute_as reg d rnd target_user cmdline invoker)) = sessions d.
Proof.
  unfold _execute_as.
  destruct (shlex.split cmdline) as [[|name args]|e]; try reflexivity.
  destruct (CommandRegistry.get reg name) as [en|]; try reflexivity.
  destruct (truthy (perm en) && _); try reflexivity.
  destruct (fn en _ _ _ _) as [[r|e] us]; reflexivity.
Qed.


Lemma execute_as_unknown (name : string) (args : list string) :
  shlex.split cmdline = Ok (name :: args) ->
  CommandRegistry.get reg name = None ->
  _execute_as reg d rnd target_user cmdline invoker
  = (Ok ("unknown command '" ++ name ++ "'"), d).
Proof. intros H1 H2. unfold _execute_as. now rewrite H1, H2. Qed.

Lemma execute_as_denied (name required : string) (args : list string) (f : handler) :
  shlex.split cmdline = Ok (name :: args) ->
  CommandRegistry.get reg name = Some {| fn := f; perm := Some required |} ->
  nonempty required = true ->
  UserStore.has_perm (users d) target_user required = false ->
  _execute_as reg d rnd target_user cmdline invoker
  = (Ok ("user '" ++ target_user ++ "' lacks '" ++ required ++ "' permission"), d).
Proof.
  intros H1 H2 H3 H4. unfold _execute_as. rewrite H1, H2.
  cbn [perm truthy from_option id]. now rewrite H3, H4.
Qed.

(** Once the permission test is passed the handler is called, and both its
    result and its fault come back as a string. *)
Lemma execute_as_call (name : string) (args : list string) (en : entry) :
  shlex.split cmdline = Ok (name :: args) ->
  CommandRegistry.get reg name = Some en ->
  truthy (perm en)
  && negb (UserStore.has_perm (users d) target_user (default "" (perm en))) = false ->
  _execute_as reg d rnd target_user cmdline invoker
  = settled d target_user cmdline invoker (call reg en d rnd target_user args).
Proof.
  intros H1 H2 H3. unfold _execute_as. rewrite H1, H2, H3.
  unfold settled, call. destruct (fn en _ _ _ _) as [[r|e] us]; reflexivity.
Qed.

End Dispatch.

(** ** The three shapes of a command line *)

Section Run.

Variable reg : CommandRegistry.t.
Variables (d : Dispatcher) (now : Z) (rnd : list byte).
Variables invoker cmdline : string.



Lemma run_command (name : string) (args : list string) :
  shlex.split cmdline = Ok (name :: args) ->
  name <> "sudo" ->
  run reg d now rnd invoker cmdline
  = let normal d :=
      _execute_as reg (log d INFO ("CMD: " ++ invoker ++ ": " ++ cmdline))
        rnd invoker cmdline invoker in
    match sessions d !! invoker with
    | Some (target, expires) =>
        if Z.ltb now expires then
          _execute_as reg
            (log d INFO ("SUDO_SESSION_EXEC: invoker=" ++ invoker ++ " active_as="
                         ++ target ++ " cmd='" ++ cmdline ++ "'"))
            rnd target cmdline invoker
        else
          normal (log (with_sessions d (delete invoker (sessions d))) INFO
                    ("SUDO_SESSION_END: invoker=" ++ invoker))
    | None => normal d
    end.
Proof.
  intros H Hname. unfold run. rewrite H.
  cbn [item nth]. apply String.eqb_neq in Hname. now rewrite Hname.
Qed.

End Run.

(** ** C1: what [run] gives back *)


(** The same happens after elevation, when the words joined by
    [' '.join(parts[3:])] no longer tokenize. *)
Lemma one_shot_rejoined_quote_raises :
  fst (run registry (fresh (default_users sample_rnd)) 0 sample_rnd "alice"
         ("sudo -u bob echo " ++ in_quotes "it's"))
  = Raise (ValueError "No closing quotation").
Proof. vm_compute. reflexivity. Qed.



(** A fault of a built-in handler, as the caller sees it. *)
Example handler_fault_is_a_string :
  fst (run registry (fresh (default_users sample_rnd)) 0 sample_rnd "admin" "grant bob")
  = Ok "error: cmd_grant() missing 1 required positional argument: 'perm'".
Proof. vm_compute. reflexivity. Qed.

(** ** C2: quoted arguments under one-shot elevation *)

(** C2, the code at the failing input. [sudo -u admin create_user] with the
    quoted argument [a b] reaches [cmd_create_user] as the two arguments [a]
    and [b], and the call fails; the same command line run by admin without
    elevation, or by alice inside a session as admin, delivers the single
    argument [a b]. The one-shot path alone joins the tokens with spaces and
    tokenizes them a second time. *)
Theorem C2_one_shot_sudo_splits_quoted_argument :
  let d := fresh (default_users sample_rnd) in
  let line := "create_user " ++ in_quotes "a b" in
  fst (run registry d 0 sample_rnd "alice" ("sudo -u admin " ++ line))
  = Ok "error: cmd_create_user() takes 2 positional arguments but 3 were given"
  /\ fst (run registry d 0 sample_rnd "admin" line) = Ok "user 'a b' created"
  /\ fst (run registry (with_sessions d {[ "alice" := ("admin", 300) ]}) 0 sample_rnd
            "alice" line) = Ok "user 'a b' created".
Proof. vm_compute. repeat split; reflexivity. Qed.

(** ** C3: the permission [grant] and [revoke] ask for *)

(** C3, the code at the failing input. The decorators register [grant] and
    [revoke] under the permission [grant]; [BotCreatorOS.__init__] registers
    them again under [admin]. In the running application carol, who holds
    [grant], is denied, and dave, who holds [admin] and not [grant], is
    served. *)
Theorem C3_grant_requires_admin_after_init (cmd_list_bots cmd_reload_bots : handler) :
  let reg := registry_after_init cmd_list_bots cmd_reload_bots in
  let us := UserStore.add_perm
              (UserStore.add_perm (default_users sample_rnd) "carol" "grant")
              "dave" "admin" in
  let d := fresh us in
  map (fun name => perm <$> CommandRegistry.get registry name) ["grant"; "revoke"]
  = [Some (Some "grant"); Some (Some "grant")]
  /\ map (fun name => perm <$> CommandRegistry.get reg name) ["grant"; "revoke"]
     = [Some (Some "admin"); Some (Some "admin")]
  /\ run reg d 0 sample_rnd "carol" "grant bob view"
     = (Ok "user 'carol' lacks 'admin' permission", log d INFO "CMD: carol: grant bob view")
  /\ run reg d 0 sample_rnd "carol" "revoke bob say"
     = (Ok "user 'carol' lacks 'admin' permission", log d INFO "CMD: carol: revoke bob say")
  /\ fst (run reg d 0 sample_rnd "dave" "grant bob view") = Ok "dave granted 'view' to bob"
  /\ fst (run reg d 0 sample_rnd "dave" "revoke bob say") = Ok "dave revoked 'say' from bob".
Proof. vm_compute. repeat split; reflexivity. Qed.

(** With the registry as the decorators leave it, [grant] is served to the
    holders of [grant] (or of the wildcard) and to nobody else. *)
Lemma grant_as_decorated
    (d : Dispatcher) (rnd : list byte) (acting invoker cmdline who p : string) :
  shlex.split cmdline = Ok ["grant"; who; p] ->
  _execute_as registry d rnd acting cmdline invoker
  = if UserStore.has_perm (users d) acting "grant"
    then (Ok (acting ++ " granted '" ++ p ++ "' to " ++ who),
          log (with_users d (UserStore.add_perm (users d) who p)) INFO
            ("EXECUTE: invoker=" ++ invoker ++ " as=" ++ acting
             ++ " cmd='" ++ cmdline ++ "' -> OK"))
    else (Ok ("user '" ++ acting ++ "' lacks 'grant' permission"), d).
Proof.
  intros H. unfold _execute_as. rewrite H.
  change (CommandRegistry.get registry "grant")
    with (Some {| fn := cmd_grant; perm := Some "grant" |}).
  cbn [perm truthy nonempty from_option id andb fn cmd_grant user].
  now destruct (UserStore.has_perm (users d) acting "grant").
Qed.

Lemma revoke_as_decorated
    (d : Dispatcher) (rnd : list byte) (acting invoker cmdline who p : string) :
  shlex.split cmdline = Ok ["revoke"; who; p] ->
  _execute_as registry d rnd acting cmdline invoker
  = if UserStore.has_perm (users d) acting "grant"
    then (Ok (acting ++ " revoked '" ++ p ++ "' from " ++ who),
          log (with_users d (UserStore.remove_perm (users d) who p)) INFO
            ("EXECUTE: invoker=" ++ invoker ++ " as=" ++ acting
             ++ " cmd='" ++ cmdline ++ "' -> OK"))
    else (Ok ("user '" ++ acting ++ "' lacks 'grant' permission"), d).
Proof.
  intros H. unfold _execute_as. rewrite H.
  change (CommandRegistry.get registry "revoke")
    with (Some {| fn := cmd_revoke; perm := Some "grant" |}).
  cbn [perm truthy nonempty from_option id andb fn cmd_revoke user].
  now destruct (UserStore.has_perm (users d) acting "grant").
Qed.

(** ** The user store *)

Lemma dict_get_set_eq {V : Type} (d : odict V) (k : string) (v : V) :
  dict_get (dict_set d k v) k = Some v.
Proof.
  induction d as [|[k' v'] d IH]; cbn [dict_set dict_get].
  - now rewrite String.eqb_refl.
  - destruct (String.eqb k' k) eqn:E; cbn [dict_get].
    + now rewrite String.eqb_refl.
    + now rewrite E.
Qed.

Lemma dict_get_set_ne {V : Type} (d : odict V) (k k' : string) (v : V) :
  k <> k' -> dict_get (dict_set d k v) k' = dict_get d k'.
Proof.
  intros Hne. induction d as [|[k0 v0] d IH]; cbn [dict_set dict_get].
  - apply String.eqb_neq in Hne. now rewrite Hne.
  - destruct (String.eqb k0 k) eqn:E; cbn [dict_get].
    + apply String.eqb_eq in E. subst k0.
      apply String.eqb_neq in Hne. now rewrite Hne.
    + now rewrite IH.
Qed.

Lemma list_perms_ensure_user (us : UserStore.t) (u v : string) :
  UserStore.list_perms (UserStore.ensure_user us u) v = UserStore.list_perms us v.
Proof.
  unfold UserStore.list_perms, UserStore.ensure_user.
  destruct (dict_get us u) eqn:E; [reflexivity|].
  destruct (String.eqb u v) eqn:Euv.
  - apply String.eqb_eq in Euv. subst v. now rewrite dict_get_set_eq, E.
  - apply String.eqb_neq in Euv. now rewrite dict_get_set_ne.
Qed.

Lemma the_account_ensure_user (us : UserStore.t) (u : string) :
  dict_get (UserStore.ensure_user us u) u
  = Some (UserStore.the_account (UserStore.ensure_user us u) u).
Proof.
  unfold UserStore.the_account, UserStore.ensure_user.
  destruct (dict_get us u) eqn:E.
  - now rewrite E.
  - now rewrite dict_get_set_eq.
Qed.

Lemma perms_the_account (us : UserStore.t) (u : string) :
  perms (UserStore.the_account us u) = UserStore.list_perms us u.
Proof.
  unfold UserStore.the_account, UserStore.list_perms.
  now destruct (dict_get us u).
Qed.

(** [has_perm] in terms of the permission list. *)
Lemma has_perm_list_perms (us : UserStore.t) (u p : string) :
  UserStore.has_perm us u p
  = bool_decide ("*" ∈ UserStore.list_perms us u)
    || bool_decide (p ∈ UserStore.list_perms us u).
Proof.
  unfold UserStore.has_perm, UserStore.list_perms.
  destruct (dict_get us u); [reflexivity|].
  rewrite !bool_decide_eq_false_2; [reflexivity | | ]; apply not_elem_of_nil.
Qed.

Lemma list_perms_add_perm (us : UserStore.t) (u p : string) :
  UserStore.list_perms (UserStore.add_perm us u p) u
  = if bool_decide (p ∈ UserStore.list_perms us u)
    then UserStore.list_perms us u
    else (UserStore.list_perms us u ++ [p])%list.
Proof.
  unfold UserStore.add_perm. cbv zeta.
  rewrite perms_the_account, list_perms_ensure_user.
  destruct (bool_decide (p ∈ UserStore.list_perms us u)).
  - apply list_perms_ensure_user.
  - unfold UserStore.list_perms at 1. now rewrite dict_get_set_eq.
Qed.

Lemma list_remove_absent (l : list string) (x : string) :
  x ∉ l -> UserStore.list_remove l x = l.
Proof.
  induction l as [|y l IH]; [reflexivity|].
  rewrite not_elem_of_cons. intros [Hne Hl]. cbn [UserStore.list_remove].
  destruct (String.eqb y x) eqn:E.
  - apply String.eqb_eq in E. congruence.
  - now rewrite IH.
Qed.

Lemma list_perms_remove_perm (us : UserStore.t) (u p : string) :
  UserStore.list_perms (UserStore.remove_perm us u p) u
  = UserStore.list_remove (UserStore.list_perms us u) p.
Proof.
  unfold UserStore.remove_perm. cbv zeta.
  rewrite perms_the_account, list_perms_ensure_user.
  destruct (bool_decide (p ∈ UserStore.list_perms us u)) eqn:E.
  - unfold UserStore.list_perms at 1. now rewrite dict_get_set_eq.
  - apply bool_decide_eq_false in E. rewrite list_remove_absent by exact E.
    apply list_perms_ensure_user.
Qed.

Lemma elem_of_list_remove (l : list string) (x y : string) :
  y ∈ UserStore.list_remove l x -> y ∈ l.
Proof.
  induction l as [|z l IH]; cbn [UserStore.list_remove]; [easy|].
  destruct (String.eqb z x); rewrite ?elem_of_cons; intuition.
Qed.

(** Where no permission is listed twice, removing one leaves none of it. *)
Lemma list_remove_NoDup (l : list string) (x : string) :
  NoDup l -> (x ∉ UserStore.list_remove l x) /\ NoDup (UserStore.list_remove l x).
Proof.
  induction 1 as [|y l Hy Hl IH]; cbn [UserStore.list_remove].
  - split; [apply not_elem_of_nil | constructor].
  - destruct (String.eqb y x) eqn:E.
    + apply String.eqb_eq in E. subst y. now split.
    + apply String.eqb_neq in E. destruct IH as [IH1 IH2]. split.
      * rewrite not_elem_of_cons. split; [congruence | exact IH1].
      * constructor; [|exact IH2]. intros Hin. apply Hy.
        now apply elem_of_list_remove in Hin.
Qed.

(** The operations of the store never list a permission twice. *)
Lemma add_perm_NoDup (us : UserStore.t) (u p : string) :
  NoDup (UserStore.list_perms us u) ->
  NoDup (UserStore.list_perms (UserStore.add_perm us u p) u).
Proof.
  intros H. rewrite list_perms_add_perm.
  destruct (bool_decide (p ∈ UserStore.list_perms us u)) eqn:E; [exact H|].
  apply bool_decide_eq_false in E. apply NoDup_app. repeat split.
  - exact H.
  - intros x Hx ->%list_elem_of_singleton. contradiction.
  - apply NoDup_singleton.
Qed.

Lemma remove_perm_NoDup (us : UserStore.t) (u p : string) :
  NoDup (UserStore.list_perms us u) ->
  NoDup (UserStore.list_perms (UserStore.remove_perm us u p) u).
Proof. intros H. rewrite list_perms_remove_perm. now apply list_remove_NoDup. Qed.

(** ** C4: granting and revoking a permission *)

(** C4, counterexample. A user who holds the wildcard still has every
    permission after it was added and removed again. *)
Lemma C4_wildcard_outlives_revoke :
  let us := UserStore.add_perm [] "u" "*" in
  UserStore.has_perm us "u" "p" = true
  /\ UserStore.has_perm
       (UserStore.remove_perm (UserStore.add_perm us "u" "p") "u" "p") "u" "p" = true.
Proof. vm_compute. split; reflexivity. Qed.

(** C4, as amended. For all stores, users [u] and permissions [p]: after
    [add_perm(u, p)], [has_perm(u, p)] is true; after the following
    [remove_perm(u, p)] it is false, provided [u] does not hold the wildcard
    (unless [p] is the wildcard itself) and the permission list of [u], as
    every list the store builds, names no permission twice. *)
Theorem C4_add_then_remove (us : UserStore.t) (u p : string) :
  NoDup (UserStore.list_perms us u) ->
  p = "*" \/ ("*" ∉ UserStore.list_perms us u) ->
  UserStore.has_perm (UserStore.add_perm us u p) u p = true
  /\ UserStore.has_perm
       (UserStore.remove_perm (UserStore.add_perm us u p) u p) u p = false.
Proof.
  intros Hnd Hstar.
  pose proof (add_perm_NoDup us u p Hnd) as Hnd'.
  split.
  - rewrite has_perm_list_perms, list_perms_add_perm.
    destruct (bool_decide (p ∈ UserStore.list_perms us u)) eqn:E.
    + rewrite E. apply orb_true_r.
    + rewrite (bool_decide_eq_true_2 (p ∈ _)); [apply orb_true_r|].
      apply elem_of_app. right. now apply list_elem_of_singleton.
  - rewrite has_perm_list_perms, list_perms_remove_perm.
    destruct (list_remove_NoDup _ p Hnd') as [Hp _].
    rewrite (bool_decide_eq_false_2 (p ∈ _)) by exact Hp.
    rewrite orb_false_r. apply bool_decide_eq_false. intros Hin.
    destruct Hstar as [-> | Hstar]; [contradiction|].
    pose proof (elem_of_list_remove _ _ _ Hin) as Hin'.
    rewrite list_perms_add_perm in Hin'.
    destruct (bool_decide (p ∈ UserStore.list_perms us u)); [contradiction|].
    apply elem_of_app in Hin' as [Hin' | Hin'%list_elem_of_singleton]; [contradiction|].
    subst p. contradiction.
Qed.

(** C4, witness: bob, who holds [say], is granted [view] and loses it. *)
Lemma C4_add_then_remove_witness :
  let us := default_users sample_rnd in
  NoDup (UserStore.list_perms us "bob")
  /\ ("view" = "*" \/ ("*" ∉ UserStore.list_perms us "bob"))
  /\ UserStore.has_perm (UserStore.add_perm us "bob" "view") "bob" "view" = true
  /\ UserStore.has_perm
       (UserStore.remove_perm (UserStore.add_perm us "bob" "view") "bob" "view")
       "bob" "view" = false.
Proof.
  assert (H1 : NoDup (UserStore.list_perms (default_users sample_rnd) "bob")).
  { vm_compute. apply NoDup_singleton. }
  assert (H2 : "view" = "*"
               \/ ("*" ∉ UserStore.list_perms (default_users sample_rnd) "bob")).
  { right. vm_compute. intros [=]%list_elem_of_singleton. }
  exact (conj H1 (conj H2
           (C4_add_then_remove (default_users sample_rnd) "bob" "view" H1 H2))).
Defined.

(** ** C5: opening an impersonation session *)



Example session_ttl_defaults :
  let d := fresh (default_users sample_rnd) in
  map (fun line => fst (run registry d 1000 sample_rnd "alice" line))
      ["sudo -i -u bob"; "sudo -i -u bob soon"; "sudo -i -u bob 1_0"; "sudo -i -u bob 5 6"]
  = [Ok "impersonating bob for 300 seconds"; Ok "impersonating bob for 300 seconds";
     Ok "impersonating bob for 10 seconds"; Ok "impersonating bob for 5 seconds"]
  /\ fst (run registry d 1000 sample_rnd "bob" "sudo -i -u admin")
     = Ok "invoker 'bob' lacks 'sudo' permission".
Proof. vm_compute. split; reflexivity. Qed.

(** ** C6: a session found expired *)

(** While the session is alive the command line is executed for its target,
    and the session stays. *)
Lemma run_live_session
    (reg : CommandRegistry.t) (d : Dispatcher) (now : Z) (rnd : list byte)
    (invoker cmdline target name : string) (expires : Z) (args : list string) :
  sessions d !! invoker = Some (target, expires) ->
  now < expires ->
  shlex.split cmdline = Ok (name :: args) ->
  name <> "sudo" ->
  run reg d now rnd invoker cmdline
  = _execute_as reg
      (log d INFO ("SUDO_SESSION_EXEC: invoker=" ++ invoker ++ " active_as="
                   ++ target ++ " cmd='" ++ cmdline ++ "'"))
      rnd target cmdline invoker
  /\ sessions (snd (run reg d now rnd invoker cmdline)) !! invoker
     = Some (target, expires).
Proof.
  intros Hs Hlt Hsplit Hname.
  rewrite (run_command reg d now rnd invoker cmdline name args Hsplit Hname).
  cbv zeta. rewrite Hs.
  destruct (Z.ltb_spec now expires) as [_|Hge]; [|lia].
  split; [reflexivity|]. now rewrite execute_as_sessions.
Qed.

(** An invoker whose session has run out, giving a command other than
    [sudo]: the session is deleted, and the command line is executed for the
    invoker. *)
Lemma run_expired_session
    (reg : CommandRegistry.t) (d : Dispatcher) (now : Z) (rnd : list byte)
    (invoker cmdline target name : string) (expires : Z) (args : list string) :
  sessions d !! invoker = Some (target, expires) ->
  expires <= now ->
  shlex.split cmdline = Ok (name :: args) ->
  name <> "sudo" ->
  let d' := log (log (with_sessions d (delete invoker (sessions d))) INFO
                   ("SUDO_SESSION_END: invoker=" ++ invoker)) INFO
              ("CMD: " ++ invoker ++ ": " ++ cmdline) in
  run reg d now rnd invoker cmdline = _execute_as reg d' rnd invoker cmdline invoker
  /\ sessions d' !! invoker = None
  /\ sessions (snd (run reg d now rnd invoker cmdline)) !! invoker = None.
Proof.
  intros Hs He Hsplit Hname d'.
  assert (Hrun : run reg d now rnd invoker cmdline
                 = _execute_as reg d' rnd invoker cmdline invoker).
  { rewrite (run_command reg d now rnd invoker cmdline name args Hsplit Hname).
    cbv zeta. rewrite Hs.
    destruct (Z.ltb_spec now expires) as [Hlt|_]; [lia|reflexivity]. }
  assert (Hd' : sessions d' !! invoker = None) by apply lookup_delete_eq.
  repeat split; [exact Hrun | exact Hd' |].
  now rewrite Hrun, execute_as_sessions.
Qed.

(** C6, counterexample. An empty command line is not a [sudo] line, and it
    is answered before the session table is looked at: the expired session
    of alice is still there after the call. *)
Lemma C6_empty_line_keeps_expired_session :
  let d := with_sessions (fresh (default_users sample_rnd)) {[ "alice" := ("bob", 50) ]} in
  sessions d !! "alice" = Some ("bob", 50)
  /\ run registry d 100 sample_rnd "alice" "" = (Ok "no command", d)
  /\ sessions (snd (run registry d 100 sample_rnd "alice" "")) !! "alice"
     = Some ("bob", 50).
Proof. vm_compute. repeat split; reflexivity. Qed.

(** C6, as amended. For every invoker with a session whose expiry is not
    after the clock reading, and every command line that tokenizes to at
    least one token, the first of which is not [sudo]: [run] deletes the
    session, logs its end, and executes the command line with the invoker as
    the acting user; no session of the invoker exists afterwards. *)
Theorem C6_lazy_session_expiry
    (reg : CommandRegistry.t) (d : Dispatcher) (now : Z) (rnd : list byte)
    (invoker cmdline target name : string) (expires : Z) (args : list string) :
  sessions d !! invoker = Some (target, expires) ->
  expires <= now ->
  shlex.split cmdline = Ok (name :: args) ->
  name <> "sudo" ->
  run reg d now rnd invoker cmdline
  = _execute_as reg
      (log (log (with_sessions d (delete invoker (sessions d))) INFO
              ("SUDO_SESSION_END: invoker=" ++ invoker)) INFO
         ("CMD: " ++ invoker ++ ": " ++ cmdline))
      rnd invoker cmdline invoker
  /\ sessions (snd (run reg d now rnd invoker cmdline)) !! invoker = None.
Proof.
  intros Hs He Hsplit Hname.
  destruct (run_expired_session reg d now rnd invoker cmdline target name expires args
              Hs He Hsplit Hname) as (H1 & _ & H3).
  now split.
Qed.

(** C6, witness: the session of alice as bob ended at 50; at 100 she is
    herself again. *)
Lemma C6_lazy_session_expiry_witness :
  let d := with_sessions (fresh (default_users sample_rnd)) {[ "alice" := ("bob", 50) ]} in
  sessions d !! "alice" = Some ("bob", 50)
  /\ 50 <= 100
  /\ shlex.split "whoami" = Ok ["whoami"]
  /\ "whoami" <> "sudo"
  /\ fst (run registry d 100 sample_rnd "alice" "whoami") = Ok "you are alice"
  /\ sessions (snd (run registry d 100 sample_rnd "alice" "whoami")) !! "alice" = None.
Proof.
  assert (H1 : sessions (with_sessions (fresh (default_users sample_rnd))
                           {[ "alice" := ("bob", 50) ]}) !! "alice" = Some ("bob", 50))
    by apply lookup_singleton_eq.
  assert (H2 : 50 <= 100) by lia.
  assert (H3 : shlex.split "whoami" = Ok ["whoami"]) by reflexivity.
  assert (H4 : "whoami" <> "sudo") by discriminate.
  destruct (C6_lazy_session_expiry registry _ 100 sample_rnd "alice" "whoami" "bob"
              "whoami" 50 [] H1 H2 H3 H4) as [H5 H6].
  assert (H7 : fst (run registry (with_sessions (fresh (default_users sample_rnd))
                                    {[ "alice" := ("bob", 50) ]})
                      100 sample_rnd "alice" "whoami") = Ok "you are alice")
    by (rewrite H5; reflexivity).
  exact (conj H1 (conj H2 (conj H3 (conj H4 (conj H7 H6))))).
Defined.


(** ** C7: passwords *)

Lemma hex_digit_not_dollar (n : N) : not_dollar (hex_digit n) = true.
Proof.
  unfold hex_digit.
  destruct (N.to_nat n) as [|k]; [reflexivity|].
  do 15 (destruct k as [|k]; [reflexivity|]). reflexivity.
Qed.

Lemma hex_not_dollar (b : list byte) : str_forall not_dollar (hex b) = true.
Proof.
  induction b as [|x b IH]; [reflexivity|].
  unfold hex. cbn [fold_right str_forall]. fold (hex b).
  now rewrite !hex_digit_not_dollar, IH.
Qed.

Lemma str_split_no_sep (s : string) :
  str_forall not_dollar s = true -> str_split "$" s = [s].
Proof.
  induction s as [|c s IH]; [reflexivity|].
  cbn [str_forall str_split]. intros [Hc Hs]%andb_true_iff.
  unfold not_dollar in Hc. apply negb_true_iff in Hc. now rewrite Hc, (IH Hs).
Qed.

Lemma str_split_first (a b : string) :
  str_forall not_dollar a = true ->
  str_split "$" (a ++ String "$" b) = a :: str_split "$" b.
Proof.
  induction a as [|c a IH]; [reflexivity|].
  cbn [str_forall]. intros [Hc Ha]%andb_true_iff.
  unfold not_dollar in Hc. apply negb_true_iff in Hc.
  rewrite append_cons. cbn [str_split]. now rewrite Hc, (IH Ha).
Qed.

(** A stored hash is its salt, a dollar sign, and a digest, and splits back
    into the two. *)
Lemma split_hash_password (plain : string) (rnd : list byte) :
  str_split "$" (hash_password plain None rnd)
  = [hex rnd; hashlib.hexdigest (encode (plain ++ hex rnd))].
Proof.
  unfold hash_password, hashlib.hexdigest.
  change ("$" ++ ?h) with (String "$" h).
  rewrite str_split_first by apply hex_not_dollar.
  now rewrite str_split_no_sep by apply hex_not_dollar.
Qed.

Lemma hash_password_same_salt (plain : string) (rnd rnd' : list byte) :
  hash_password plain (Some (hex rnd)) rnd' = hash_password plain None rnd.
Proof. reflexivity. Qed.

Lemma dict_get_set_password (us : UserStore.t) (rnd : list byte) (u p : string) :
  dict_get (UserStore.set_password us rnd u p) u
  = Some {| perms := UserStore.list_perms us u;
            password := Some (hash_password p None rnd) |}.
Proof.
  unfold UserStore.set_password. cbv zeta. rewrite dict_get_set_eq.
  now rewrite perms_the_account, list_perms_ensure_user.
Qed.

(** C7. [check_password] answers false for a user the store does not know
    and for a user without a password; and for every store, user and
    plaintext, whatever the salt drawn, it answers true right after
    [set_password] stored that plaintext for that user. *)
Theorem C7_check_password
    (us : UserStore.t) (rnd : list byte) (username plain : string) :
  (dict_get us username = None ->
     UserStore.check_password us username plain = Ok false)
  /\ (forall u, dict_get us username = Some u -> password u = None ->
        UserStore.check_password us username plain = Ok false)
  /\ UserStore.check_password (UserStore.set_password us rnd username plain)
       username plain = Ok true.
Proof.
  repeat split.
  - intros H. unfold UserStore.check_password. now rewrite H.
  - intros u H1 H2. unfold UserStore.check_password. now rewrite H1, H2.
  - unfold UserStore.check_password.
    rewrite dict_get_set_password. cbn [password].
    rewrite split_hash_password. cbn [unpack2 bind].
    rewrite hash_password_same_salt. now rewrite String.eqb_refl.
Qed.

(** C7, witness: guest is known and has no password, zed is unknown, and
    bob logs in with the password just set. *)
Lemma C7_check_password_witness :
  let us := default_users sample_rnd in
  dict_get us "zed" = None
  /\ UserStore.check_password us "zed" "secret" = Ok false
  /\ (password <$> dict_get us "guest") = Some None
  /\ UserStore.check_password us "guest" "secret" = Ok false
  /\ UserStore.check_password (UserStore.set_password us sample_rnd "bob" "secret")
       "bob" "secret" = Ok true.
Proof.
  pose proof (C7_check_password (default_users sample_rnd) sample_rnd "zed" "secret")
    as (Hz & _ & _).
  pose proof (C7_check_password (default_users sample_rnd) sample_rnd "guest" "secret")
    as (_ & Hg & _).
  pose proof (C7_check_password (default_users sample_rnd) sample_rnd "bob" "secret")
    as (_ & _ & Hb).
  exact (conj eq_refl (conj (Hz eq_refl) (conj eq_refl
           (conj (Hg {| perms := ["view"]; password := None |} eq_refl eq_refl) Hb)))).
Defined.

Example password_examples :
  let us := UserStore.set_password (default_users sample_rnd) sample_rnd "bob" "secret" in
  dict_get us "bob"
  = Some {| perms := ["say"];
            password := Some ("3a910ce75520b84df1067ec318aa629f$"
              ++ hashlib.hexdigest (encode "secret3a910ce75520b84df1067ec318aa629f")) |}
  /\ UserStore.check_password us "bob" "Secret" = Ok false
  /\ UserStore.check_password us "admin" "adminpass" = Ok true.
Proof. vm_compute. repeat split; reflexivity. Qed.

(** ** C8: changing the password of somebody else *)

Lemma log_with_users_same (d : Dispatcher) (lvl : level) (msg : string) :
  log (with_users d (users d)) lvl msg = log d lvl msg.
Proof. now destruct d. Qed.

(** C8. For every registry that holds [change_password] as the file
    registers it (under [admin]), every acting user who holds [admin] and
    neither [change_others_password] nor the wildcard, and every other user
    [who]: [change_password who new] passes the registry's test, answers
    with the dedicated refusal, and leaves the store, hence the password
    record of [who], as it was. *)
Theorem C8_change_password_of_others
    (reg : CommandRegistry.t) (d : Dispatcher) (rnd : list byte)
    (acting invoker cmdline who new_plain : string) :
  shlex.split cmdline = Ok ["change_password"; who; new_plain] ->
  CommandRegistry.get reg "change_password"
  = Some {| fn := cmd_change_password; perm := Some "admin" |} ->
  "admin" ∈ UserStore.list_perms (users d) acting ->
  "change_others_password" ∉ UserStore.list_perms (users d) acting ->
  "*" ∉ UserStore.list_perms (users d) acting ->
  who <> acting ->
  let r := _execute_as reg d rnd acting cmdline invoker in
  fst r = Ok "no permission to change others' password"
  /\ users (snd r) = users d
  /\ password <$> dict_get (users (snd r)) who = password <$> dict_get (users d) who.
Proof.
  intros Hsplit Hget Hadmin Hcop Hstar Hwho r. subst r.
  assert (Ha : UserStore.has_perm (users d) acting "admin" = true).
  { rewrite has_perm_list_perms, (bool_decide_eq_true_2 ("admin" ∈ _)) by exact Hadmin.
    apply orb_true_r. }
  assert (Hc : UserStore.has_perm (users d) acting "change_others_password" = false).
  { rewrite has_perm_list_perms, !bool_decide_eq_false_2; [reflexivity | exact Hcop | exact Hstar]. }
  rewrite (execute_as_call reg d rnd acting cmdline invoker _ _ _ Hsplit Hget)
    by (cbn [perm truthy from_option id nonempty]; now rewrite Ha).
  unfold call. cbn [fn cmd_change_password user].
  apply String.eqb_neq in Hwho. rewrite Hwho, Hc.
  cbn [negb andb settled fst snd]. rewrite log_with_users_same. now cbn [log users].
Qed.

(** C8, witness: dave holds [admin] alone and tries to change the password
    of bob. *)
Lemma C8_change_password_of_others_witness :
  let us := UserStore.add_perm (default_users sample_rnd) "dave" "admin" in
  let r := _execute_as registry (fresh us) sample_rnd "dave" "change_password bob hunter2" "dave" in
  UserStore.list_perms us "dave" = ["admin"]
  /\ fst r = Ok "no permission to change others' password"
  /\ users (snd r) = us.
Proof.
  assert (H1 : "admin" ∈ UserStore.list_perms
                 (UserStore.add_perm (default_users sample_rnd) "dave" "admin") "dave").
  { vm_compute. now apply list_elem_of_singleton. }
  assert (H2 : "change_others_password" ∉ UserStore.list_perms
                 (UserStore.add_perm (default_users sample_rnd) "dave" "admin") "dave").
  { vm_compute. intros [=]%list_elem_of_singleton. }
  assert (H3 : "*" ∉ UserStore.list_perms
                 (UserStore.add_perm (default_users sample_rnd) "dave" "admin") "dave").
  { vm_compute. intros [=]%list_elem_of_singleton. }
  assert (H4 : "bob" <> "dave") by discriminate.
  destruct (C8_change_password_of_others registry
              (fresh (UserStore.add_perm (default_users sample_rnd) "dave" "admin"))
              sample_rnd "dave" "dave" "change_password bob hunter2" "bob" "hunter2"
              eq_refl eq_refl H1 H2 H3 H4) as (H5 & H6 & _).
  exact (conj eq_refl (conj H5 H6)).
Defined.

Example change_password_examples :
  let us := UserStore.add_perm (default_users sample_rnd) "dave" "admin" in
  map (fun p => fst (run registry (fresh us) 0 sample_rnd (fst p) (snd p)))
      [("dave", "change_password dave hunter2"); ("admin", "change_password bob hunter2");
       ("bob", "change_password bob hunter2"); ("dave", "change_password bob")]
  = [Ok "password changed for dave"; Ok "password changed for bob";
     Ok "user 'bob' lacks 'admin' permission";
     Ok "error: cmd_change_password() missing 1 required positional argument: 'new_plain'"].
Proof. vm_compute. reflexivity. Qed.

(** ** C9: elevation to a user the store does not know *)



Example unknown_target_examples :
  let d := fresh (default_users sample_rnd) in
  map (fun line => fst (run registry d 0 sample_rnd "alice" line))
      ["sudo -u nobody echo hello there"; "sudo -u nobody list_commands";
       "sudo -u nobody say hello"; "sudo -u nobody"]
  = [Ok "hello there";
     Ok "grant, revoke, whoami, say, echo, list_users, list_perms, create_user, change_password, add_perm, remove_perm, list_commands";
     Ok "user 'nobody' lacks 'say' permission";
     Ok "usage: sudo -u <target> <command...>"].
Proof. vm_compute. reflexivity. Qed.

(** ** int and str *)


Lemma digits_string_of_uint (u : Decimal.uint) :
  str_forall is_digit (NilEmpty.string_of_uint u) = true.
Proof. induction u; cbn [NilEmpty.string_of_uint str_forall]; now rewrite ?IHu. Qed.






Lemma string_of_uint_nonnil (u : Decimal.uint) :
  u <> Decimal.Nil -> NilZero.string_of_uint u = NilEmpty.string_of_uint u.
Proof. destruct u; [contradiction | reflexivity ..]. Qed.


Lemma digit_ordinary (c : ascii) : is_digit c = true -> ordinary c = true.
Proof. destruct c as [[] [] [] [] [] [] [] []]; try discriminate; reflexivity. Qed.

Lemma digits_ordinary (s : string) :
  str_forall is_digit s = true -> str_forall ordinary s = true.
Proof.
  induction s as [|c s IH]; [reflexivity|].
  cbn [str_forall]. intros [Hc Hs]%andb_true_iff.
  now rewrite (digit_ordinary c Hc), (IH Hs).
Qed.

(** The decimal spelling of an integer is a plain word. *)
Lemma plain_str_int (n : Z) : plain (str_int n) = true.
Proof.
  unfold str_int. destruct n as [|p|p]; [reflexivity| |];
    cbn [Z.to_int NilZero.string_of_int];
    pose proof (DecimalPos.Unsigned.to_uint_nonnil p) as Hp;
    rewrite (string_of_uint_nonnil _ Hp);
    pose proof (digits_ordinary _ (digits_string_of_uint (Pos.to_uint p))) as Hd;
    unfold plain.
  - rewrite Hd. destruct (Pos.to_uint p); [contradiction | reflexivity ..].
  - cbn [nonempty str_forall]. now rewrite Hd.
Qed.

(** The command line that opens a session, written out: a plain target and
    the decimal spelling of any TTL give the five tokens. *)
Lemma session_command_line (target : string) (ttl : Z) :
  plain target = true ->
  shlex.split ("sudo -i -u " ++ target ++ " " ++ str_int ttl)
  = Ok ["sudo"; "-i"; "-u"; target; str_int ttl].
Proof.
  intros Ht.
  change ("sudo -i -u " ++ target ++ " " ++ str_int ttl)
    with (join " " ["sudo"; "-i"; "-u"; target; str_int ttl]).
  apply split_join_plain.
  repeat constructor; try reflexivity; [exact Ht | apply plain_str_int].
Qed.

(** ** C10: a TTL that is not positive *)



(** A TTL of zero: the session is installed and the next command no longer
    finds it alive. *)
Example nonpositive_ttl_examples :
  let d := fresh (default_users sample_rnd) in
  let r := run registry d 1000 sample_rnd "alice" "sudo -i -u admin 0" in
  fst r = Ok "impersonating admin for 0 seconds"
  /\ sessions (snd r) !! "alice" = Some ("admin", 1000)
  /\ fst (run registry (snd r) 1000 sample_rnd "alice" "list_users")
     = Ok "user 'alice' lacks 'admin' permission".
Proof. vm_compute. repeat split; reflexivity. Qed.

(** * Further properties of the dispatcher *)

(** ** Lines without a command, and malformed elevation *)

Lemma tokens_blank (s : string) :
  blank s = true -> shlex.tokens s shlex.Blank "" false = Ok [].
Proof.
  induction s as [|c s IH]; [reflexivity|].
  unfold blank. cbn [str_forall]. intros [Hc Hs]%andb_true_iff.
  cbn [shlex.tokens nonempty orb]. rewrite Hc. exact (IH Hs).
Qed.

(** X1. For every invoker and every command line that holds nothing but
    spaces, tabs, carriage returns and newlines (the empty line among them),
    [run] answers [no command] and changes nothing: no log line, no session
    expiry. *)
Theorem blank_line_is_no_command
    (reg : CommandRegistry.t) (d : Dispatcher) (now : Z) (rnd : list byte)
    (invoker cmdline : string) :
  blank cmdline = true ->
  run reg d now rnd invoker cmdline = (Ok "no command", d).
Proof.
  intros H. unfold run, shlex.split. now rewrite (tokens_blank _ H).
Qed.

Lemma blank_line_is_no_command_witness :
  blank (String " " (String "009" (String "010" ""))) = true
  /\ run registry (fresh (default_users sample_rnd)) 0 sample_rnd "alice"
       (String " " (String "009" (String "010" "")))
     = (Ok "no command", fresh (default_users sample_rnd)).
Proof.
  exact (conj eq_refl
           (blank_line_is_no_command registry (fresh (default_users sample_rnd)) 0
              sample_rnd "alice" (String " " (String "009" (String "010" ""))) eq_refl)).
Defined.

(** X2. A [sudo] line of fewer than four tokens is answered with a usage
    string and changes nothing, whatever the invoker may do: [sudo -u target]
    without a command gets the usage of the one-shot form, every other short
    line the usage of both forms. The test for the [sudo] permission comes
    after, so an invoker without it gets the usage too. *)
Theorem short_sudo_line_is_usage
    (reg : CommandRegistry.t) (d : Dispatcher) (now : Z) (rnd : list byte)
    (invoker cmdline : string) (rest : list string) :
  shlex.split cmdline = Ok ("sudo" :: rest) ->
  (length rest < 3)%nat ->
  run reg d now rnd invoker cmdline
  = (Ok (match rest with
         | [flag; _] =>
             if String.eqb flag "-u" then "usage: sudo -u <target> <command...>"
             else "usage: sudo -u <target> <command...>  OR  sudo -i -u <target> [seconds]"
         | _ => "usage: sudo -u <target> <command...>  OR  sudo -i -u <target> [seconds]"
         end), d).
Proof.
  intros H Hlen. unfold run. rewrite H.
  change (String.eqb (item _ 0) "sudo") with true. cbn iota.
  destruct rest as [|a [|b [|c rest]]]; cbn [length] in Hlen; try lia;
    cbn [length Nat.leb Nat.ltb andb item nth]; try reflexivity.
  now destruct (String.eqb a "-u").
Qed.

Lemma short_sudo_line_is_usage_witness :
  shlex.split "sudo -u admin" = Ok ["sudo"; "-u"; "admin"]
  /\ (length ["-u"; "admin"] < 3)%nat
  /\ UserStore.has_perm (default_users sample_rnd) "bob" "sudo" = false
  /\ run registry (fresh (default_users sample_rnd)) 0 sample_rnd "bob" "sudo -u admin"
     = (Ok "usage: sudo -u <target> <command...>", fresh (default_users sample_rnd)).
Proof.
  assert (H : (length ["-u"; "admin"] < 3)%nat) by (cbn; lia).
  exact (conj eq_refl (conj H (conj eq_refl
           (short_sudo_line_is_usage registry (fresh (default_users sample_rnd)) 0
              sample_rnd "bob" "sudo -u admin" ["-u"; "admin"] eq_refl H)))).
Defined.

(** X3. A command that is not registered is answered with [unknown command]
    and its name, whoever asks and whatever session is in place, and the user
    store stays as it was. *)
Theorem unknown_command_is_named
    (reg : CommandRegistry.t) (d : Dispatcher) (now : Z) (rnd : list byte)
    (invoker cmdline name : string) (args : list string) :
  shlex.split cmdline = Ok (name :: args) ->
  name <> "sudo" ->
  CommandRegistry.get reg name = None ->
  fst (run reg d now rnd invoker cmdline) = Ok ("unknown command '" ++ name ++ "'")
  /\ users (snd (run reg d now rnd invoker cmdline)) = users d.
Proof.
  intros Hsplit Hname Hget.
  rewrite (run_command reg d now rnd invoker cmdline name args Hsplit Hname). cbv zeta.
  destruct (sessions d !! invoker) as [[target expires]|];
    [destruct (Z.ltb now expires)|];
    now rewrite (execute_as_unknown reg _ rnd _ cmdline invoker name args Hsplit Hget).
Qed.

Lemma unknown_command_is_named_witness :
  shlex.split "frobnicate now" = Ok ["frobnicate"; "now"]
  /\ "frobnicate" <> "sudo"
  /\ fst (run registry (fresh (default_users sample_rnd)) 0 sample_rnd "admin"
            "frobnicate now") = Ok "unknown command 'frobnicate'".
Proof.
  assert (H : "frobnicate" <> "sudo") by discriminate.
  exact (conj eq_refl (conj H
           (proj1 (unknown_command_is_named registry (fresh (default_users sample_rnd)) 0
                     sample_rnd "admin" "frobnicate now" "frobnicate" ["now"]
                     eq_refl H eq_refl)))).
Defined.

(** ** Whose permissions count *)

(** The answer of [_execute_as] and the store it leaves depend on the
    tokens, the acting user and the store, not on the invoker, the raw line,
    the sessions or the log. *)
Lemma execute_as_view
    (reg : CommandRegistry.t) (d1 d2 : Dispatcher) (rnd : list byte)
    (target_user c1 c2 i1 i2 : string) :
  shlex.split c1 = shlex.split c2 ->
  users d1 = users d2 ->
  fst (_execute_as reg d1 rnd target_user c1 i1)
  = fst (_execute_as reg d2 rnd target_user c2 i2)
  /\ users (snd (_execute_as reg d1 rnd target_user c1 i1))
     = users (snd (_execute_as reg d2 rnd target_user c2 i2)).
Proof.
  intros Hs Hu. unfold _execute_as. rewrite Hs, Hu.
  destruct (shlex.split c2) as [[|name args]|e]; try (split; [reflexivity | exact Hu]).
  destruct (CommandRegistry.get reg name) as [en|]; [|split; [reflexivity | exact Hu]].
  destruct (truthy (perm en) && _); [split; [reflexivity | exact Hu]|].
  destruct (fn en _ _ _ _) as [[r|e] us]; split; reflexivity.
Qed.

(** X4. While the session of an invoker is alive, the target stands in for
    the invoker in every respect: a registered command other than [sudo] is
    refused when the target lacks its permission and handed to the handler
    with the target as [ctx.user] otherwise, whatever the invoker holds (the
    [sudo] permission included); and the session stays in place. *)
Theorem live_session_acts_as_target
    (reg : CommandRegistry.t) (d : Dispatcher) (now : Z) (rnd : list byte)
    (invoker cmdline target name : string) (expires : Z) (args : list string)
    (en : entry) :
  sessions d !! invoker = Some (target, expires) ->
  now < expires ->
  shlex.split cmdline = Ok (name :: args) ->
  name <> "sudo" ->
  CommandRegistry.get reg name = Some en ->
  let r := run reg d now rnd invoker cmdline in
  let d' := log d INFO ("SUDO_SESSION_EXEC: invoker=" ++ invoker ++ " active_as="
                        ++ target ++ " cmd='" ++ cmdline ++ "'") in
  let refused :=
    truthy (perm en)
    && negb (UserStore.has_perm (users d) target (default "" (perm en))) in
  sessions (snd r) !! invoker = Some (target, expires)
  /\ (refused = true ->
        r = (Ok ("user '" ++ target ++ "' lacks '" ++ default "" (perm en)
                 ++ "' permission"), d'))
  /\ (refused = false ->
        r = settled d' target cmdline invoker (call reg en d' rnd target args)).
Proof.
  intros Hs Hlt Hsplit Hname Hget r d' refused.
  destruct (run_live_session reg d now rnd invoker cmdline target name expires args
              Hs Hlt Hsplit Hname) as [Hrun Hsess].
  subst r. split; [exact Hsess|]. rewrite Hrun. fold d'. split; intros Href.
  - unfold _execute_as. rewrite Hsplit, Hget. cbv zeta.
    change (users d') with (users d). fold refused. now rewrite Href.
  - exact (execute_as_call reg d' rnd target cmdline invoker name args en
             Hsplit Hget Href).
Qed.

(** alice, who may not list users, does so inside a session as admin; and
    admin inside a session as guest may not. *)
Lemma live_session_acts_as_target_witness :
  let d := with_sessions (fresh (default_users sample_rnd))
             {[ "alice" := ("admin", 300); "admin" := ("guest", 300) ]} in
  sessions d !! "alice" = Some ("admin", 300)
  /\ 0 < 300
  /\ shlex.split "list_users" = Ok ["list_users"]
  /\ UserStore.has_perm (users d) "alice" "admin" = false
  /\ fst (run registry d 0 sample_rnd "alice" "list_users") = Ok "admin, guest, alice, bob"
  /\ fst (run registry d 0 sample_rnd "admin" "list_users")
     = Ok "user 'guest' lacks 'admin' permission".
Proof.
  assert (H1 : sessions (with_sessions (fresh (default_users sample_rnd))
                 {[ "alice" := ("admin", 300); "admin" := ("guest", 300) ]}) !! "alice"
               = Some ("admin", 300)) by (vm_compute; reflexivity).
  assert (H1' : sessions (with_sessions (fresh (default_users sample_rnd))
                 {[ "alice" := ("admin", 300); "admin" := ("guest", 300) ]}) !! "admin"
               = Some ("guest", 300)) by (vm_compute; reflexivity).
  assert (H2 : 0 < 300) by lia.
  assert (H3 : "list_users" <> "sudo") by discriminate.
  pose proof (live_session_acts_as_target registry _ 0 sample_rnd "alice" "list_users"
                "admin" "list_users" 300 [] {| fn := cmd_list_users; perm := Some "admin" |}
                H1 H2 eq_refl H3 eq_refl) as (_ & _ & Ha).
  pose proof (live_session_acts_as_target registry _ 0 sample_rnd "admin" "list_users"
                "guest" "list_users" 300 [] {| fn := cmd_list_users; perm := Some "admin" |}
                H1' H2 eq_refl H3 eq_refl) as (_ & Hb & _).
  cbv zeta in Ha, Hb. specialize (Ha eq_refl). specialize (Hb eq_refl).
  refine (conj H1 (conj H2 (conj eq_refl (conj eq_refl (conj _ _))))).
  - rewrite Ha. reflexivity.
  - rewrite Hb. reflexivity.
Defined.

(** X5. [run] never touches the session of anybody but its invoker: for
    every registry, state and command line, the session entry of every other
    user is after the call what it was before. *)
Theorem run_keeps_other_sessions
    (reg : CommandRegistry.t) (d : Dispatcher) (now : Z) (rnd : list byte)
    (invoker cmdline other : string) :
  other <> invoker ->
  sessions (snd (run reg d now rnd invoker cmdline)) !! other = sessions d !! other.
Proof.
  intros Hne. unfold run.
  destruct (shlex.split cmdline) as [[|p0 ps]|e]; try reflexivity.
  destruct (String.eqb (item (p0 :: ps) 0) "sudo").
  - destruct (Nat.leb 3 (length (p0 :: ps)) && String.eqb (item (p0 :: ps) 1) "-u").
    + destruct (Nat.ltb (length (p0 :: ps)) 4); [reflexivity|].
      destruct (negb (UserStore.has_perm (users d) invoker "sudo")); [reflexivity|].
      now rewrite execute_as_sessions.
    + destruct (Nat.leb 4 (length (p0 :: ps)) && _ && _); [|reflexivity].
      destruct (negb (UserStore.has_perm (users d) invoker "sudo")); [reflexivity|].
      cbn [snd log with_sessions sessions]. now apply lookup_insert_ne.
  - cbv zeta. destruct (sessions d !! invoker) as [[target expires]|] eqn:Hs.
    + destruct (Z.ltb now expires); rewrite execute_as_sessions; [reflexivity|].
      cbn [log with_sessions sessions]. now apply lookup_delete_ne.
    + now rewrite execute_as_sessions.
Qed.

Lemma run_keeps_other_sessions_witness :
  let d := with_sessions (fresh (default_users sample_rnd)) {[ "bob" := ("admin", 50) ]} in
  "bob" <> "alice"
  /\ sessions (snd (run registry d 100 sample_rnd "alice" "sudo -i -u bob")) !! "bob"
     = Some ("admin", 50).
Proof.
  assert (H : "bob" <> "alice") by discriminate.
  refine (conj H _).
  rewrite (run_keeps_other_sessions registry _ 100 sample_rnd "alice" "sudo -i -u bob"
             "bob" H).
  reflexivity.
Defined.

(** X6. A [sudo] line is settled from the user store alone: its answer and
    the store it leaves are the same whatever sessions exist (the invoker's
    own, alive or expired, among them), whatever was logged and whatever the
    clock shows. *)
Theorem sudo_line_reads_only_the_store
    (reg : CommandRegistry.t) (d d' : Dispatcher) (now now' : Z) (rnd : list byte)
    (invoker cmdline : string) (rest : list string) :
  shlex.split cmdline = Ok ("sudo" :: rest) ->
  users d = users d' ->
  fst (run reg d now rnd invoker cmdline) = fst (run reg d' now' rnd invoker cmdline)
  /\ users (snd (run reg d now rnd invoker cmdline))
     = users (snd (run reg d' now' rnd invoker cmdline)).
Proof.
  intros Hsplit Hu. unfold run. rewrite Hsplit, Hu.
  change (String.eqb (item _ 0) "sudo") with true. cbn iota.
  destruct (Nat.leb 3 (length ("sudo" :: rest)) && _).
  - destruct (Nat.ltb (length ("sudo" :: rest)) 4); [split; [reflexivity | exact Hu]|].
    destruct (negb (UserStore.has_perm (users d') invoker "sudo"));
      [split; [reflexivity | exact Hu]|].
    now apply execute_as_view.
  - destruct (Nat.leb 4 (length ("sudo" :: rest)) && _ && _);
      [|split; [reflexivity | exact Hu]].
    destruct (negb (UserStore.has_perm (users d') invoker "sudo"));
      split; try reflexivity; exact Hu.
Qed.

Lemma sudo_line_reads_only_the_store_witness :
  let d := fresh (default_users sample_rnd) in
  let d' := with_sessions d {[ "alice" := ("guest", 900) ]} in
  shlex.split "sudo -u bob whoami" = Ok ["sudo"; "-u"; "bob"; "whoami"]
  /\ users d = users d'
  /\ fst (run registry d' 100 sample_rnd "alice" "sudo -u bob whoami") = Ok "you are bob".
Proof.
  cbv zeta.
  assert (H1 : shlex.split "sudo -u bob whoami" = Ok ["sudo"; "-u"; "bob"; "whoami"])
    by reflexivity.
  assert (H2 : users (fresh (default_users sample_rnd))
               = users (with_sessions (fresh (default_users sample_rnd))
                          {[ "alice" := ("guest", 900) ]})) by reflexivity.
  refine (conj H1 (conj H2 _)).
  rewrite <- (proj1 (sudo_line_reads_only_the_store registry _ _ 0 100 sample_rnd
                       "alice" "sudo -u bob whoami" ["-u"; "bob"; "whoami"] H1 H2)).
  reflexivity.
Defined.





(** ** What the commands keep of the store *)

Lemma dict_get_None_keys {V : Type} (d : odict V) (k : string) :
  dict_get d k = None <-> k ∉ dict_keys d.
Proof.
  induction d as [|[k' v] d IH]; cbn [dict_get dict_keys map fst].
  - split; [intros _; apply not_elem_of_nil | reflexivity].
  - rewrite not_elem_of_cons. destruct (String.eqb k' k) eqn:E.
    + apply String.eqb_eq in E. split; [discriminate | intros [H _]; congruence].
    + apply String.eqb_neq in E. unfold dict_keys in IH. rewrite IH.
      split; [intros H; split; [congruence | exact H] | now intros [_ H]].
Qed.

Lemma dict_keys_set_present {V : Type} (d : odict V) (k : string) (v v' : V) :
  dict_get d k = Some v' -> dict_keys (dict_set d k v) = dict_keys d.
Proof.
  induction d as [|[k0 v0] d IH]; cbn [dict_get dict_set]; [discriminate|].
  destruct (String.eqb k0 k) eqn:E; intros H.
  - apply String.eqb_eq in E. now subst k0.
  - cbn [dict_keys map fst]. f_equal. exact (IH H).
Qed.

Lemma dict_keys_set_absent {V : Type} (d : odict V) (k : string) (v : V) :
  dict_get d k = None -> dict_keys (dict_set d k v) = (dict_keys d ++ [k])%list.
Proof.
  induction d as [|[k0 v0] d IH]; cbn [dict_get dict_set]; [reflexivity|].
  destruct (String.eqb k0 k) eqn:E; intros H; [discriminate|].
  cbn [dict_keys map fst app]. f_equal. exact (IH H).
Qed.

(** [ensure_user] adds a new name at the end, or nothing. *)
Lemma dict_keys_ensure_user (us : UserStore.t) (u : string) :
  dict_keys (UserStore.ensure_user us u)
  = if bool_decide (u ∈ dict_keys us) then dict_keys us else (dict_keys us ++ [u])%list.
Proof.
  unfold UserStore.ensure_user. destruct (dict_get us u) eqn:E.
  - rewrite bool_decide_eq_true_2; [reflexivity|].
    destruct (decide (u ∈ dict_keys us)) as [|Hn]; [assumption|].
    apply dict_get_None_keys in Hn. congruence.
  - rewrite bool_decide_eq_false_2 by now apply dict_get_None_keys.
    now apply dict_keys_set_absent.
Qed.

Lemma dict_keys_set_ensured (us : UserStore.t) (u : string) (a : account) :
  dict_keys (dict_set (UserStore.ensure_user us u) u a)
  = dict_keys (UserStore.ensure_user us u).
Proof.
  eapply dict_keys_set_present, the_account_ensure_user.
Qed.

Lemma dict_keys_add_perm (us : UserStore.t) (u p : string) :
  dict_keys (UserStore.add_perm us u p) = dict_keys (UserStore.ensure_user us u).
Proof.
  unfold UserStore.add_perm. cbv zeta.
  destruct (bool_decide _); [reflexivity | apply dict_keys_set_ensured].
Qed.

Lemma dict_keys_remove_perm (us : UserStore.t) (u p : string) :
  dict_keys (UserStore.remove_perm us u p) = dict_keys (UserStore.ensure_user us u).
Proof.
  unfold UserStore.remove_perm. cbv zeta.
  destruct (bool_decide _); [apply dict_keys_set_ensured | reflexivity].
Qed.

Lemma dict_keys_set_password (us : UserStore.t) (rnd : list byte) (u p : string) :
  dict_keys (UserStore.set_password us rnd u p) = dict_keys (UserStore.ensure_user us u).
Proof. unfold UserStore.set_password. cbv zeta. apply dict_keys_set_ensured. Qed.

Lemma ensure_user_prefix (us : UserStore.t) (u : string) :
  dict_keys us `prefix_of` dict_keys (UserStore.ensure_user us u).
Proof.
  rewrite dict_keys_ensure_user. destruct (bool_decide _); [reflexivity|].
  now apply prefix_app_r.
Qed.

(** The permission list of [v] once the account of [k] is replaced. *)
Lemma list_perms_set (us : UserStore.t) (k v : string) (a : account) :
  UserStore.list_perms (dict_set us k a) v
  = if String.eqb k v then perms a else UserStore.list_perms us v.
Proof.
  unfold UserStore.list_perms. destruct (String.eqb k v) eqn:E.
  - apply String.eqb_eq in E. subst v. now rewrite dict_get_set_eq.
  - apply String.eqb_neq in E. now rewrite dict_get_set_ne.
Qed.

Lemma list_perms_add_perm_other (us : UserStore.t) (u v p : string) :
  u <> v ->
  UserStore.list_perms (UserStore.add_perm us u p) v = UserStore.list_perms us v.
Proof.
  intros Hne. unfold UserStore.add_perm. cbv zeta.
  destruct (bool_decide _); [apply list_perms_ensure_user|].
  rewrite list_perms_set. apply String.eqb_neq in Hne. rewrite Hne.
  apply list_perms_ensure_user.
Qed.

Lemma list_perms_remove_perm_other (us : UserStore.t) (u v p : string) :
  u <> v ->
  UserStore.list_perms (UserStore.remove_perm us u p) v = UserStore.list_perms us v.
Proof.
  intros Hne. unfold UserStore.remove_perm. cbv zeta.
  destruct (bool_decide _); [|apply list_perms_ensure_user].
  rewrite list_perms_set. apply String.eqb_neq in Hne. rewrite Hne.
  apply list_perms_ensure_user.
Qed.

Lemma list_perms_set_password (us : UserStore.t) (rnd : list byte) (u v p : string) :
  UserStore.list_perms (UserStore.set_password us rnd u p) v = UserStore.list_perms us v.
Proof.
  unfold UserStore.set_password. cbv zeta. rewrite list_perms_set.
  destruct (String.eqb u v) eqn:E; [|apply list_perms_ensure_user].
  apply String.eqb_eq in E. subst v. cbn [perms].
  now rewrite perms_the_account, list_perms_ensure_user.
Qed.

Lemma wf_ensure_user (us : UserStore.t) (u : string) :
  wf_store us -> wf_store (UserStore.ensure_user us u).
Proof.
  intros [Hk Hp]. split.
  - rewrite dict_keys_ensure_user.
    destruct (bool_decide (u ∈ dict_keys us)) eqn:E; [exact Hk|].
    apply bool_decide_eq_false in E. apply NoDup_app. repeat split.
    + exact Hk.
    + intros x Hx ->%list_elem_of_singleton. contradiction.
    + apply NoDup_singleton.
  - intros v. rewrite list_perms_ensure_user. apply Hp.
Qed.

Lemma wf_add_perm (us : UserStore.t) (u p : string) :
  wf_store us -> wf_store (UserStore.add_perm us u p).
Proof.
  intros Hwf. split.
  - rewrite dict_keys_add_perm. now apply wf_ensure_user.
  - intros v. destruct Hwf as [_ Hp]. destruct (decide (u = v)) as [<-|Hne].
    + apply add_perm_NoDup, Hp.
    + rewrite list_perms_add_perm_other by exact Hne. apply Hp.
Qed.

Lemma wf_remove_perm (us : UserStore.t) (u p : string) :
  wf_store us -> wf_store (UserStore.remove_perm us u p).
Proof.
  intros Hwf. split.
  - rewrite dict_keys_remove_perm. now apply wf_ensure_user.
  - intros v. destruct Hwf as [_ Hp]. destruct (decide (u = v)) as [<-|Hne].
    + apply remove_perm_NoDup, Hp.
    + rewrite list_perms_remove_perm_other by exact Hne. apply Hp.
Qed.

Lemma wf_set_password (us : UserStore.t) (rnd : list byte) (u p : string) :
  wf_store us -> wf_store (UserStore.set_password us rnd u p).
Proof.
  intros Hwf. split.
  - rewrite dict_keys_set_password. now apply wf_ensure_user.
  - intros v. rewrite list_perms_set_password. apply Hwf.
Qed.

(** A property of the store that every handler of the registry carries over
    is carried over by [run]: outside the handlers the store is only read. *)
Lemma execute_as_store_step
    (P : UserStore.t -> UserStore.t -> Prop)
    (reg : CommandRegistry.t) (d : Dispatcher) (rnd : list byte)
    (target_user cmdline invoker : string) :
  (forall us, P us us) ->
  (forall name en ctx args env us,
      CommandRegistry.get reg name = Some en -> P us (snd (fn en ctx args env us))) ->
  P (users d) (users (snd (_execute_as reg d rnd target_user cmdline invoker))).
Proof.
  intros Hrefl Hstep. unfold _execute_as.
  destruct (shlex.split cmdline) as [[|name args]|e]; try apply Hrefl.
  destruct (CommandRegistry.get reg name) as [en|] eqn:Hget; [|apply Hrefl].
  destruct (truthy (perm en) && _); [apply Hrefl|].
  specialize (Hstep name en {| user := target_user |} args
                {| all_commands := CommandRegistry.all_commands reg; urandom := rnd |}
                (users d) Hget).
  destruct (fn en _ _ _ _) as [[r|e] us]; exact Hstep.
Qed.

Lemma run_store_step
    (P : UserStore.t -> UserStore.t -> Prop)
    (reg : CommandRegistry.t) (d : Dispatcher) (now : Z) (rnd : list byte)
    (invoker cmdline : string) :
  (forall us, P us us) ->
  (forall name en ctx args env us,
      CommandRegistry.get reg name = Some en -> P us (snd (fn en ctx args env us))) ->
  P (users d) (users (snd (run reg d now rnd invoker cmdline))).
Proof.
  intros Hrefl Hstep.
  pose proof (fun d' t c => execute_as_store_step P reg d' rnd t c invoker Hrefl Hstep)
    as Hex.
  unfold run.
  destruct (shlex.split cmdline) as [[|p0 ps]|e]; try apply Hrefl.
  destruct (String.eqb (item (p0 :: ps) 0) "sudo").
  - destruct (Nat.leb 3 (length (p0 :: ps)) && String.eqb (item (p0 :: ps) 1) "-u").
    + destruct (Nat.ltb (length (p0 :: ps)) 4); [apply Hrefl|].
      destruct (negb (UserStore.has_perm (users d) invoker "sudo")); [apply Hrefl|].
      apply (Hex (log d INFO _)).
    + destruct (Nat.leb 4 (length (p0 :: ps)) && _ && _); [|apply Hrefl].
      destruct (negb (UserStore.has_perm (users d) invoker "sudo")); apply Hrefl.
  - cbv zeta. destruct (sessions d !! invoker) as [[target expires]|].
    + destruct (Z.ltb now expires).
      * apply (Hex (log d INFO _)).
      * apply (Hex (log (log (with_sessions d _) INFO _) INFO _)).
    + apply (Hex (log d INFO _)).
Qed.

Lemma dict_get_Forall {V : Type} (Q : V -> Prop) (d : odict V) (k : string) (v : V) :
  Forall (fun kv => Q (snd kv)) d -> dict_get d k = Some v -> Q v.
Proof.
  induction 1 as [|[k' v'] d Hq Hd IH]; cbn [dict_get]; [discriminate|].
  destruct (String.eqb k' k); [now intros [= <-] | exact IH].
Qed.

Ltac handler_cases args :=
  destruct args as [|? [|? [|? ?]]]; cbn [snd].

Ltac each_entry :=
  repeat match goal with
         | |- Forall _ (_ :: _) => apply List.Forall_cons
         | |- Forall _ [] => apply List.Forall_nil
         end.

Lemma builtin_keep_users :
  Forall (fun kv => keeps_users (fn (snd kv))) registry.
Proof.
  unfold registry, CommandRegistry.register. cbn [dict_set String.eqb Ascii.eqb Bool.eqb].
  each_entry; intros ctx args env us; cbn [snd fn];
    unfold cmd_grant, cmd_revoke, cmd_whoami, cmd_say, cmd_echo, cmd_list_users,
      cmd_list_perms, cmd_create_user, cmd_change_password, cmd_add_perm,
      cmd_remove_perm, cmd_list_commands;
    try reflexivity; handler_cases args; try reflexivity;
    rewrite ?dict_keys_add_perm, ?dict_keys_remove_perm;
    try apply ensure_user_prefix.
  destruct (negb _ && negb _); cbn [snd]; [reflexivity|].
  rewrite dict_keys_set_password. apply ensure_user_prefix.
Qed.

Lemma builtin_keep_wf :
  Forall (fun kv => keeps_wf (fn (snd kv))) registry.
Proof.
  unfold registry, CommandRegistry.register. cbn [dict_set String.eqb Ascii.eqb Bool.eqb].
  each_entry; intros ctx args env us Hwf; cbn [snd fn];
    unfold cmd_grant, cmd_revoke, cmd_whoami, cmd_say, cmd_echo, cmd_list_users,
      cmd_list_perms, cmd_create_user, cmd_change_password, cmd_add_perm,
      cmd_remove_perm, cmd_list_commands;
    try exact Hwf; handler_cases args; try exact Hwf;
    try (now apply wf_add_perm); try (now apply wf_remove_perm);
    try (now apply wf_ensure_user).
  destruct (negb _ && negb _); cbn [snd]; [exact Hwf | now apply wf_set_password].
Qed.

(** X9. No built-in command deletes a user or changes the order of the
    users: for every state and command line, the user names of the store
    before a [run] over the registry of the file are the first user names of
    the store after it, in the same order. *)
Theorem builtin_commands_keep_users
    (d : Dispatcher) (now : Z) (rnd : list byte) (invoker cmdline : string) :
  UserStore.list_users (users d)
  `prefix_of` UserStore.list_users (users (snd (run registry d now rnd invoker cmdline))).
Proof.
  apply (run_store_step (fun us us' => dict_keys us `prefix_of` dict_keys us')).
  - reflexivity.
  - intros name en ctx args env us Hget.
    exact (dict_get_Forall (fun e => keeps_users (fn e)) registry name en
             builtin_keep_users Hget ctx args env us).
Qed.

Lemma empty_store_wf : wf_store [].
Proof. split; [constructor | intros u; constructor]. Qed.

Lemma default_users_wf (rnd : list byte) : wf_store (default_users rnd).
Proof.
  unfold default_users. cbv zeta.
  repeat first [apply wf_add_perm | apply wf_ensure_user].
  destruct (password _); [|apply wf_set_password]; apply wf_ensure_user, empty_store_wf.
Qed.

(** X10. The built-in commands keep the user store well formed: if no user
    name and, within each permission list, no permission occurs twice before
    a [run] over the registry of the file, the same holds after it, whatever
    the command line. The store set up at start is of that kind. *)
Theorem builtin_commands_keep_store_well_formed
    (d : Dispatcher) (now : Z) (rnd : list byte) (invoker cmdline : string) :
  wf_store (users d) ->
  wf_store (users (snd (run registry d now rnd invoker cmdline))).
Proof.
  apply (run_store_step (fun us us' => wf_store us -> wf_store us')).
  - auto.
  - intros name en ctx args env us Hget.
    exact (dict_get_Forall (fun e => keeps_wf (fn e)) registry name en
             builtin_keep_wf Hget ctx args env us).
Qed.

Lemma builtin_commands_keep_store_well_formed_witness :
  let d := fresh (default_users sample_rnd) in
  wf_store (users d)
  /\ wf_store (users (snd (run registry d 0 sample_rnd "admin" "grant bob say"))).
Proof.
  exact (conj (default_users_wf sample_rnd)
           (builtin_commands_keep_store_well_formed (fresh (default_users sample_rnd)) 0
              sample_rnd "admin" "grant bob say" (default_users_wf sample_rnd))).
Defined.

(** ** Permissions: who gains what *)

(** X11. [add_perm] grants exactly what it names, to exactly the user it
    names: after [add_perm(u, p)], a user [v] has permission [q] if and only
    if [v] had it before, or [v] is [u] and [q] is [p], or [v] is [u] and [p]
    is the wildcard, which grants every [q]. *)
Theorem add_perm_grants_exactly (us : UserStore.t) (u p v q : string) :
  UserStore.has_perm (UserStore.add_perm us u p) v q
  = UserStore.has_perm us v q
    || String.eqb v u && (String.eqb q p || String.eqb p "*").
Proof.
  rewrite !has_perm_list_perms. destruct (String.eqb v u) eqn:Evu.
  - apply String.eqb_eq in Evu. subst v. rewrite list_perms_add_perm.
    apply eq_iff_eq_true.
    destruct (bool_decide (p ∈ UserStore.list_perms us u)) eqn:Ep.
    + apply bool_decide_eq_true in Ep.
      rewrite !orb_true_iff, andb_true_iff, orb_true_iff, !bool_decide_eq_true,
        !String.eqb_eq.
      split; [tauto|]. intros [H | [_ [-> | ->]]]; tauto.
    + rewrite !orb_true_iff, andb_true_iff, orb_true_iff, !bool_decide_eq_true,
        !String.eqb_eq, !elem_of_app, !list_elem_of_singleton.
      split; [intros [[H | H] | [H | H]]; auto | intros [[H | H] | [_ [H | H]]]; auto].
  - apply String.eqb_neq in Evu.
    rewrite list_perms_add_perm_other by congruence.
    cbn [andb]. now rewrite orb_false_r.
Qed.

(** X12. [remove_perm] never grants anything: after [remove_perm(u, p)]
    every other user has the permissions held before, and [u] has no
    permission that was not held before. *)
Theorem remove_perm_never_grants (us : UserStore.t) (u p v q : string) :
  (v <> u ->
     UserStore.has_perm (UserStore.remove_perm us u p) v q = UserStore.has_perm us v q)
  /\ (UserStore.has_perm (UserStore.remove_perm us u p) v q = true ->
        UserStore.has_perm us v q = true).
Proof.
  assert (Hother : v <> u ->
            UserStore.has_perm (UserStore.remove_perm us u p) v q
            = UserStore.has_perm us v q).
  { intros Hne. rewrite !has_perm_list_perms.
    now rewrite list_perms_remove_perm_other by congruence. }
  split; [exact Hother|].
  destruct (decide (v = u)) as [->|Hne]; [|now rewrite Hother].
  rewrite !has_perm_list_perms, list_perms_remove_perm.
  rewrite !orb_true_iff, !bool_decide_eq_true.
  intros [H | H]; [left | right]; exact (elem_of_list_remove _ _ _ H).
Qed.

Lemma remove_perm_never_grants_witness :
  let us := default_users sample_rnd in
  "bob" <> "alice"
  /\ UserStore.has_perm (UserStore.remove_perm us "alice" "say") "bob" "say" = true
  /\ UserStore.has_perm (UserStore.remove_perm us "alice" "say") "alice" "sudo" = true
  /\ UserStore.has_perm us "alice" "sudo" = true.
Proof.
  cbv zeta.
  assert (H : "bob" <> "alice") by discriminate.
  assert (H2 : UserStore.has_perm (UserStore.remove_perm (default_users sample_rnd)
                                     "alice" "say") "alice" "sudo" = true) by reflexivity.
  refine (conj H (conj _ (conj H2 _))).
  - rewrite (proj1 (remove_perm_never_grants (default_users sample_rnd)
                      "alice" "say" "bob" "say") H). reflexivity.
  - exact (proj2 (remove_perm_never_grants (default_users sample_rnd)
                    "alice" "say" "alice" "sudo") H2).
Defined.

(** ** Passwords and permissions do not meet *)

Lemma check_password_stored (us : UserStore.t) (username plain : string) :
  UserStore.check_password us username plain
  = match stored_password us username with
    | None => Ok false
    | Some hp =>
        bind (unpack2 (str_split "$" hp)) (fun '(salt, hashed) =>
        Ok (String.eqb (hash_password plain (Some salt) []) hp))
    end.
Proof.
  unfold UserStore.check_password, stored_password.
  now destruct (dict_get us username).
Qed.

Lemma stored_password_ensure_user (us : UserStore.t) (u v : string) :
  stored_password (UserStore.ensure_user us u) v = stored_password us v.
Proof.
  unfold stored_password, UserStore.ensure_user.
  destruct (dict_get us u) eqn:E; [reflexivity|].
  destruct (String.eqb u v) eqn:Euv.
  - apply String.eqb_eq in Euv. subst v. now rewrite dict_get_set_eq, E.
  - apply String.eqb_neq in Euv. now rewrite dict_get_set_ne.
Qed.

Lemma password_the_account (us : UserStore.t) (u : string) :
  password (UserStore.the_account us u) = stored_password us u.
Proof.
  unfold UserStore.the_account, stored_password. now destruct (dict_get us u).
Qed.

(** Replacing the account of [u] by one with the same password. *)
Lemma stored_password_set_same (us : UserStore.t) (u v : string) (l : list string) :
  stored_password
    (dict_set (UserStore.ensure_user us u) u
       {| perms := l;
          password := password (UserStore.the_account (UserStore.ensure_user us u) u) |}) v
  = stored_password us v.
Proof.
  unfold stored_password at 1. destruct (String.eqb u v) eqn:E.
  - apply String.eqb_eq in E. subst v. rewrite dict_get_set_eq. cbn [password].
    now rewrite password_the_account, stored_password_ensure_user.
  - apply String.eqb_neq in E. rewrite dict_get_set_ne by exact E.
    apply stored_password_ensure_user.
Qed.

Lemma stored_password_add_perm (us : UserStore.t) (u p v : string) :
  stored_password (UserStore.add_perm us u p) v = stored_password us v.
Proof.
  unfold UserStore.add_perm. cbv zeta.
  destruct (bool_decide _); [apply stored_password_ensure_user|].
  apply stored_password_set_same.
Qed.

Lemma stored_password_remove_perm (us : UserStore.t) (u p v : string) :
  stored_password (UserStore.remove_perm us u p) v = stored_password us v.
Proof.
  unfold UserStore.remove_perm. cbv zeta.
  destruct (bool_decide _); [|apply stored_password_ensure_user].
  apply stored_password_set_same.
Qed.

(** X13. Passwords and permissions are independent: [ensure_user],
    [add_perm] and [remove_perm] change the outcome of no password check,
    for any user and plaintext, and [set_password] changes the permissions
    of no user. *)
Theorem passwords_and_permissions_are_independent
    (us : UserStore.t) (rnd : list byte) (u p v q plain : string) :
  UserStore.check_password (UserStore.ensure_user us u) v plain
  = UserStore.check_password us v plain
  /\ UserStore.check_password (UserStore.add_perm us u p) v plain
     = UserStore.check_password us v plain
  /\ UserStore.check_password (UserStore.remove_perm us u p) v plain
     = UserStore.check_password us v plain
  /\ UserStore.has_perm (UserStore.set_password us rnd u p) v q
     = UserStore.has_perm us v q.
Proof.
  rewrite !check_password_stored, stored_password_ensure_user,
    stored_password_add_perm, stored_password_remove_perm.
  repeat split. now rewrite !has_perm_list_perms, list_perms_set_password.
Qed.

(** ** Doing it twice *)

Lemma ensure_user_known (us : UserStore.t) (u : string) (a : account) :
  dict_get us u = Some a -> UserStore.ensure_user us u = us.
Proof. intros H. unfold UserStore.ensure_user. now rewrite H. Qed.

(** X14. Creating a user and granting a permission are idempotent: a second
    [ensure_user(u)] or [add_perm(u, p)] right after the first leaves the
    store, order of users and of permissions included, as the first left
    it. *)
Theorem ensure_user_and_add_perm_are_idempotent (us : UserStore.t) (u p : string) :
  UserStore.ensure_user (UserStore.ensure_user us u) u = UserStore.ensure_user us u
  /\ UserStore.add_perm (UserStore.add_perm us u p) u p = UserStore.add_perm us u p.
Proof.
  split.
  - exact (ensure_user_known _ u _ (the_account_ensure_user us u)).
  - assert (Hin : p ∈ UserStore.list_perms (UserStore.add_perm us u p) u).
    { rewrite list_perms_add_perm.
      destruct (bool_decide (p ∈ UserStore.list_perms us u)) eqn:E.
      - now apply bool_decide_eq_true in E.
      - apply elem_of_app. right. now apply list_elem_of_singleton. }
    assert (Hknown : exists a, dict_get (UserStore.add_perm us u p) u = Some a).
    { unfold UserStore.add_perm. cbv zeta. destruct (bool_decide _).
      - eexists. apply the_account_ensure_user.
      - eexists. apply dict_get_set_eq. }
    destruct Hknown as [a Ha].
    unfold UserStore.add_perm at 1. cbv zeta.
    rewrite (ensure_user_known _ u a Ha), perms_the_account.
    now rewrite bool_decide_eq_true_2 by exact Hin.
Qed.

(** ** A stored hash that is not one *)

(** X15. [check_password] does not answer false for a malformed record, it
    raises: when the stored password of a known user does not split at its
    dollar signs into exactly two pieces (no dollar sign, or more than one),
    the unpacking fails and [ValueError] reaches the caller. *)
Theorem check_password_raises_on_malformed_hash
    (us : UserStore.t) (username plain hp : string) :
  stored_password us username = Some hp ->
  length (str_split "$" hp) <> 2%nat ->
  exists msg, UserStore.check_password us username plain = Raise (ValueError msg).
Proof.
  intros Hs Hlen. rewrite check_password_stored, Hs.
  destruct (str_split "$" hp) as [|a [|b [|c l]]]; cbn [length] in Hlen;
    try (eexists; reflexivity).
  contradiction.
Qed.

Lemma check_password_raises_on_malformed_hash_witness :
  let us := [("eve", {| perms := []; password := Some "plaintext" |})] in
  stored_password us "eve" = Some "plaintext"
  /\ length (str_split "$" "plaintext") <> 2%nat
  /\ UserStore.check_password us "eve" "plaintext"
     = Raise (ValueError "not enough values to unpack (expected 2, got 1)").
Proof.
  cbv zeta.
  assert (H : length (str_split "$" "plaintext") <> 2%nat) by (vm_compute; lia).
  destruct (check_password_raises_on_malformed_hash
              [("eve", {| perms := []; password := Some "plaintext" |})]
              "eve" "plaintext" "plaintext" eq_refl H) as [msg Hmsg].
  exact (conj eq_refl (conj H eq_refl)).
Defined.

(** ** Commands and the store, end to end *)

Lemma has_perm_passes (d : Dispatcher) (acting required : string) :
  UserStore.has_perm (users d) acting required = true ->
  truthy (Some required)
  && negb (UserStore.has_perm (users d) acting (default "" (Some required))) = false.
Proof. intros H. cbn [from_option id]. rewrite H. apply andb_false_r. Qed.

(** X16. [create_user] never overwrites an account. Run for an acting user
    who holds [admin]: if [who] exists, the store is left exactly as it was,
    and the answer still says that the user was created; if [who] is new, it
    is added after the existing users, with no permission and no password. *)
Theorem create_user_keeps_existing_accounts
    (reg : CommandRegistry.t) (d : Dispatcher) (rnd : list byte)
    (acting invoker cmdline who : string) :
  shlex.split cmdline = Ok ["create_user"; who] ->
  CommandRegistry.get reg "create_user"
  = Some {| fn := cmd_create_user; perm := Some "admin" |} ->
  UserStore.has_perm (users d) acting "admin" = true ->
  let r := _execute_as reg d rnd acting cmdline invoker in
  fst r = Ok ("user '" ++ who ++ "' created")
  /\ (who ∈ UserStore.list_users (users d) -> users (snd r) = users d)
  /\ (who ∉ UserStore.list_users (users d) ->
        users (snd r) = (users d ++ [(who, {| perms := []; password := None |})])%list).
Proof.
  intros Hsplit Hget Hadmin r. subst r.
  rewrite (execute_as_call reg d rnd acting cmdline invoker _ _ _ Hsplit Hget
             (has_perm_passes d acting "admin" Hadmin)).
  unfold call. cbn [fn cmd_create_user settled fst snd log with_users users].
  split; [reflexivity|]. unfold UserStore.list_users, UserStore.ensure_user. split.
  - intros Hin. destruct (dict_get (users d) who) eqn:E; [reflexivity|].
    apply dict_get_None_keys in E. contradiction.
  - intros Hnin. apply dict_get_None_keys in Hnin. rewrite Hnin.
    clear -Hnin. induction (users d) as [|[k v] us IH]; [reflexivity|].
    cbn [dict_get] in Hnin. cbn [dict_set].
    destruct (String.eqb k who); [discriminate|]. cbn [app]. f_equal. exact (IH Hnin).
Qed.

Lemma create_user_keeps_existing_accounts_witness :
  let d := fresh (default_users sample_rnd) in
  let r := _execute_as registry d sample_rnd "admin" "create_user alice" "admin" in
  shlex.split "create_user alice" = Ok ["create_user"; "alice"]
  /\ UserStore.has_perm (users d) "admin" "admin" = true
  /\ "alice" ∈ UserStore.list_users (users d)
  /\ fst r = Ok "user 'alice' created"
  /\ users (snd r) = users d.
Proof.
  cbv zeta.
  assert (Hin : "alice" ∈ UserStore.list_users (users (fresh (default_users sample_rnd)))).
  { apply list_elem_of_In. vm_compute. tauto. }
  destruct (create_user_keeps_existing_accounts registry (fresh (default_users sample_rnd))
              sample_rnd "admin" "admin" "create_user alice" "alice"
              eq_refl eq_refl eq_refl) as (H1 & H2 & _).
  exact (conj eq_refl (conj eq_refl (conj Hin (conj H1 (H2 Hin))))).
Defined.

(** X17. A grant made through the dispatcher takes effect at once: when the
    acting user holds the permission under which [grant] is registered
    ([grant] by the decorators, [admin] after start-up), [grant who perm]
    answers that the permission was granted, and in the store it leaves
    [who] passes the test for [perm]; a [who] unknown until then is now a
    user. *)
Theorem grant_takes_effect
    (reg : CommandRegistry.t) (d : Dispatcher) (rnd : list byte)
    (acting invoker cmdline who p required : string) :
  shlex.split cmdline = Ok ["grant"; who; p] ->
  CommandRegistry.get reg "grant" = Some {| fn := cmd_grant; perm := Some required |} ->
  UserStore.has_perm (users d) acting required = true ->
  let r := _execute_as reg d rnd acting cmdline invoker in
  fst r = Ok (acting ++ " granted '" ++ p ++ "' to " ++ who)
  /\ UserStore.has_perm (users (snd r)) who p = true
  /\ who ∈ UserStore.list_users (users (snd r)).
Proof.
  intros Hsplit Hget Hperm r. subst r.
  rewrite (execute_as_call reg d rnd acting cmdline invoker _ _ _ Hsplit Hget
             (has_perm_passes d acting required Hperm)).
  unfold call. cbn [fn cmd_grant settled fst snd log with_users users user].
  split; [reflexivity|]. split.
  - rewrite has_perm_list_perms, list_perms_add_perm.
    destruct (bool_decide (p ∈ UserStore.list_perms (users d) who)) eqn:E.
    + rewrite E. apply orb_true_r.
    + rewrite (bool_decide_eq_true_2 (p ∈ _)); [apply orb_true_r|].
      apply elem_of_app. right. now apply list_elem_of_singleton.
  - unfold UserStore.list_users. rewrite dict_keys_add_perm, dict_keys_ensure_user.
    destruct (bool_decide (who ∈ dict_keys (users d))) eqn:E.
    + now apply bool_decide_eq_true in E.
    + apply elem_of_app. right. now apply list_elem_of_singleton.
Qed.

Lemma grant_takes_effect_witness :
  let d := fresh (default_users sample_rnd) in
  let r := _execute_as (registry_after_init cmd_echo cmd_echo) d sample_rnd "admin"
             "grant zoe view" "admin" in
  shlex.split "grant zoe view" = Ok ["grant"; "zoe"; "view"]
  /\ UserStore.has_perm (users d) "admin" "admin" = true
  /\ UserStore.has_perm (users d) "zoe" "view" = false
  /\ fst r = Ok "admin granted 'view' to zoe"
  /\ UserStore.has_perm (users (snd r)) "zoe" "view" = true.
Proof.
  cbv zeta.
  destruct (grant_takes_effect (registry_after_init cmd_echo cmd_echo)
              (fresh (default_users sample_rnd)) sample_rnd "admin" "admin"
              "grant zoe view" "zoe" "view" "admin" eq_refl eq_refl eq_refl)
    as (H1 & H2 & _).
  exact (conj eq_refl (conj eq_refl (conj eq_refl (conj H1 H2)))).
Defined.

(** X18. Where [change_password] goes through: for an acting user who holds
    [admin] and either names itself or holds [change_others_password] (the
    wildcard counts for both), [change_password who new] answers that the
    password was changed, [who] can log in with [new] at once, whatever the
    salt drawn, and no permission of anybody has changed. *)
Theorem change_password_takes_effect
    (reg : CommandRegistry.t) (d : Dispatcher) (rnd : list byte)
    (acting invoker cmdline who new_plain : string) :
  shlex.split cmdline = Ok ["change_password"; who; new_plain] ->
  CommandRegistry.get reg "change_password"
  = Some {| fn := cmd_change_password; perm := Some "admin" |} ->
  UserStore.has_perm (users d) acting "admin" = true ->
  who = acting \/ UserStore.has_perm (users d) acting "change_others_password" = true ->
  let r := _execute_as reg d rnd acting cmdline invoker in
  fst r = Ok ("password changed for " ++ who)
  /\ UserStore.check_password (users (snd r)) who new_plain = Ok true
  /\ forall v q, UserStore.has_perm (users (snd r)) v q = UserStore.has_perm (users d) v q.
Proof.
  intros Hsplit Hget Hadmin Hmay r. subst r.
  rewrite (execute_as_call reg d rnd acting cmdline invoker _ _ _ Hsplit Hget
             (has_perm_passes d acting "admin" Hadmin)).
  unfold call. cbn [fn cmd_change_password user urandom].
  assert (Hgo : negb (String.eqb who acting)
                && negb (UserStore.has_perm (users d) acting "change_others_password")
                = false).
  { destruct Hmay as [-> | Hc].
    - now rewrite String.eqb_refl.
    - rewrite Hc. apply andb_false_r. }
  rewrite Hgo. cbn [settled fst snd log with_users users].
  split; [reflexivity|]. split.
  - unfold UserStore.check_password.
    rewrite dict_get_set_password. cbn [password].
    rewrite split_hash_password. cbn [unpack2 bind].
    rewrite hash_password_same_salt. now rewrite String.eqb_refl.
  - intros v q. now rewrite !has_perm_list_perms, list_perms_set_password.
Qed.

Lemma change_password_takes_effect_witness :
  let us := UserStore.add_perm (default_users sample_rnd) "dave" "admin" in
  let r := _execute_as registry (fresh us) sample_rnd "dave"
             "change_password dave hunter2" "dave" in
  shlex.split "change_password dave hunter2" = Ok ["change_password"; "dave"; "hunter2"]
  /\ UserStore.has_perm us "dave" "admin" = true
  /\ UserStore.has_perm us "dave" "change_others_password" = false
  /\ UserStore.check_password us "dave" "hunter2" = Ok false
  /\ fst r = Ok "password changed for dave"
  /\ UserStore.check_password (users (snd r)) "dave" "hunter2" = Ok true.
Proof.
  cbv zeta.
  destruct (change_password_takes_effect registry
              (fresh (UserStore.add_perm (default_users sample_rnd) "dave" "admin"))
              sample_rnd "dave" "dave" "change_password dave hunter2" "dave" "hunter2"
              eq_refl eq_refl eq_refl (or_introl eq_refl)) as (H1 & H2 & _).
  exact (conj eq_refl (conj eq_refl (conj eq_refl (conj eq_refl (conj H1 H2))))).
Defined.

(** * The chat engine *)




Lemma choice_member (seq : list string) (draw : nat) :
  seq <> [] -> exists r, choice seq draw = Ok r /\ r ∈ seq.
Proof.
  intros Hne. destruct seq as [|x seq]; [contradiction|].
  eexists. split; [reflexivity|].
  apply list_elem_of_In, nth_In, Nat.mod_upper_bound. discriminate.
Qed.

Lemma any_in_app (ws1 ws2 : list string) (m : string) :
  AIEngine.any_in (ws1 ++ ws2) m = AIEngine.any_in ws1 m || AIEngine.any_in ws2 m.
Proof. unfold AIEngine.any_in. apply existsb_app. Qed.

Lemma keywords_split (m : string) :
  AIEngine.any_in keywords m
  = AIEngine.any_in ["hello"; "hi"; "hey"] m
    || (AIEngine.any_in ["bye"; "goodbye"; "see you"] m
        || (AIEngine.any_in ["thank"; "thanks"] m || AIEngine.any_in ["help"; "assist"] m)).
Proof.
  change keywords
    with (["hello"; "hi"; "hey"] ++ ["bye"; "goodbye"; "see you"]
          ++ ["thank"; "thanks"] ++ ["help"; "assist"])%list.
  now rewrite !any_in_app.
Qed.

(** X20. Keywords win over everything learned, and they are looked for
    anywhere in the text. With the table of answers as [__init__] builds it
    and a message of ASCII text: if the lowered message contains [hello],
    [hi] or [hey], inside another word too, the answer is one of the three
    greetings; and if it contains any of the ten keywords, the answer is one
    of the canned answers of the four keyword categories, even when an
    answer was learned for that very message. *)
Theorem keywords_win_over_learned_answers
    (e : AIEngine.t) (message : string) (draw : nat) :
  AIEngine.responses e = AIEngine.responses AIEngine.init ->
  is_ascii message = true ->
  (AIEngine.any_in ["hello"; "hi"; "hey"] (lower message) = true ->
     exists r, fst (AIEngine.generate_response e message draw) = Ok r
               /\ r ∈ canned "greeting")
  /\ (AIEngine.any_in keywords (lower message) = true ->
        exists r, fst (AIEngine.generate_response e message draw) = Ok r
                  /\ r ∈ (canned "greeting" ++ canned "goodbye" ++ canned "thanks"
                          ++ canned "help")%list).
Proof.
  intros Hr _.
  assert (Hcat : forall category,
             In category ["greeting"; "goodbye"; "thanks"; "help"] ->
             forall e', AIEngine.responses e' = AIEngine.responses e ->
             exists r, AIEngine._get_response e' category draw = Ok r
                       /\ r ∈ canned category).
  { intros category Hin e' He'. unfold AIEngine._get_response. rewrite He', Hr.
    cbn [In] in Hin.
    destruct Hin as [<- | [<- | [<- | [<- | []]]]]; apply choice_member; discriminate. }
  split.
  - intros Hg. unfold AIEngine.generate_response. cbv zeta. rewrite Hg. cbn [fst].
    apply Hcat; [cbn; tauto | reflexivity].
  - rewrite keywords_split. intros Hk.
    unfold AIEngine.generate_response. cbv zeta.
    destruct (AIEngine.any_in ["hello"; "hi"; "hey"] (lower message)).
    { destruct (Hcat "greeting" ltac:(cbn; tauto) _ eq_refl) as (r & Hr1 & Hr2).
      exists r. split; [exact Hr1|]. rewrite !elem_of_app. tauto. }
    destruct (AIEngine.any_in ["bye"; "goodbye"; "see you"] (lower message)).
    { destruct (Hcat "goodbye" ltac:(cbn; tauto) _ eq_refl) as (r & Hr1 & Hr2).
      exists r. split; [exact Hr1|]. rewrite !elem_of_app. tauto. }
    destruct (AIEngine.any_in ["thank"; "thanks"] (lower message)).
    { destruct (Hcat "thanks" ltac:(cbn; tauto) _ eq_refl) as (r & Hr1 & Hr2).
      exists r. split; [exact Hr1|]. rewrite !elem_of_app. tauto. }
    destruct (AIEngine.any_in ["help"; "assist"] (lower message)); [|discriminate].
    destruct (Hcat "help" ltac:(cbn; tauto) _ eq_refl) as (r & Hr1 & Hr2).
    exists r. split; [exact Hr1|]. rewrite !elem_of_app. tauto.
Qed.

(** The engine is taught an answer for [This is fine]; the [hi] inside
    [This] still gets a greeting. *)
Lemma keywords_win_over_learned_answers_witness :
  let e := fst (AIEngine.learn_response AIEngine.init "This is fine" "Glad to hear it") in
  AIEngine.responses e = AIEngine.responses AIEngine.init
  /\ is_ascii "This is fine" = true
  /\ AIEngine.any_in ["hello"; "hi"; "hey"] (lower "This is fine") = true
  /\ AIEngine.learned_responses e !! lower "This is fine" = Some "Glad to hear it"
  /\ fst (AIEngine.generate_response e "This is fine" 1) = Ok "Hi! What's on your mind?".
Proof.
  cbv zeta.
  destruct (keywords_win_over_learned_answers
              (fst (AIEngine.learn_response AIEngine.init "This is fine" "Glad to hear it"))
              "This is fine" 1 eq_refl eq_refl) as [H _].
  destruct (H eq_refl) as (r & Hr & _).
  refine (conj eq_refl (conj eq_refl (conj eq_refl (conj _ _)))).
  - vm_compute. reflexivity.
  - vm_compute. reflexivity.
Defined.

(** X21. What was learned comes back, in any letter case: after
    [learn_response(input, output)], a message of ASCII text that equals
    [input] up to the case of its letters and contains none of the ten
    keywords is answered with [output]. *)
Theorem learned_answer_comes_back
    (e : AIEngine.t) (input_text output_text message : string) (draw : nat) :
  is_ascii input_text = true ->
  is_ascii message = true ->
  lower message = lower input_text ->
  AIEngine.any_in keywords (lower input_text) = false ->
  fst (AIEngine.generate_response
         (fst (AIEngine.learn_response e input_text output_text)) message draw)
  = Ok output_text.
Proof.
  intros _ _ Hsame Hk. rewrite keywords_split in Hk.
  apply orb_false_iff in Hk as [H1 Hk]. apply orb_false_iff in Hk as [H2 Hk].
  apply orb_false_iff in Hk as [H3 H4].
  unfold AIEngine.generate_response. cbv zeta. rewrite Hsame, H1, H2, H3, H4.
  cbn [AIEngine.learn_response fst AIEngine.learned_responses].
  now rewrite lookup_insert_eq.
Qed.

Lemma learned_answer_comes_back_witness :
  let e := fst (AIEngine.learn_response AIEngine.init "Status Report" "All green") in
  is_ascii "Status Report" = true
  /\ is_ascii "STATUS report" = true
  /\ lower "STATUS report" = lower "Status Report"
  /\ AIEngine.any_in keywords (lower "Status Report") = false
  /\ fst (AIEngine.generate_response e "STATUS report" 0) = Ok "All green".
Proof.
  exact (conj eq_refl (conj eq_refl (conj eq_refl (conj eq_refl
           (learned_answer_comes_back AIEngine.init "Status Report" "All green"
              "STATUS report" 0 eq_refl eq_refl eq_refl eq_refl))))).
Defined.

(** * The sudo console *)










(** X23. A user whose name is empty can log in and can do nothing. If the
    store holds a password for the empty name (the quoted empty token makes
    [create_user] and [change_password] accept it), [sudo_login] with a
    username of whitespace only and that password succeeds and shows
    [Logged in as ]; but [sudo_execute] tests the truth of [current_user],
    the empty name counts as false, and every command typed afterwards is
    met with [Please login first!] while the dispatcher stays untouched. *)
Theorem nameless_user_logs_in_but_cannot_act
    (reg : CommandRegistry.t) (app : BotCreatorOS) (username_text password_text : string) :
  strip username_text = "" ->
  UserStore.check_password (users (dispatcher app)) "" password_text = Ok true ->
  exists app',
    sudo_login app username_text password_text = Ok app'
    /\ current_user app' = Some ""
    /\ sudo_status app' = ("Logged in as ", "green")
    /\ forall text now rnd,
         let r := sudo_execute reg (type_command app' text) now rnd in
         fst r = Ok tt
         /\ dispatcher (snd r) = dispatcher app
         /\ sudo_output (snd r) = sudo_output app
         /\ last (boxes (snd r)) = Some (showwarning "Warning" "Please login first!").
Proof.
  intros Hname Hcheck. unfold sudo_login. cbv zeta. rewrite Hname, Hcheck. cbn [bind].
  eexists. split; [reflexivity|]. cbn [current_user sudo_status]. repeat split.
  cbn [boxes snd sudo_execute type_command]. apply last_snoc.
Qed.

(** admin gives the empty name a password; the empty name then logs in and
    is told to log in. *)
Lemma nameless_user_logs_in_but_cannot_act_witness :
  let d := snd (run registry (fresh (default_users sample_rnd)) 0 sample_rnd "admin"
                  ("change_password " ++ in_quotes "" ++ " secret")) in
  strip "  " = ""
  /\ UserStore.check_password (users d) "" "secret" = Ok true
  /\ exists app',
       sudo_login (window d) "  " "secret" = Ok app'
       /\ current_user app' = Some ""
       /\ fst (sudo_execute registry (type_command app' "whoami") 0 sample_rnd) = Ok tt
       /\ dispatcher (snd (sudo_execute registry (type_command app' "whoami") 0 sample_rnd))
          = d.
Proof.
  cbv zeta.
  assert (Hc : UserStore.check_password
                 (users (snd (run registry (fresh (default_users sample_rnd)) 0 sample_rnd
                                "admin" ("change_password " ++ in_quotes "" ++ " secret"))))
                 "" "secret" = Ok true) by (vm_compute; reflexivity).
  destruct (nameless_user_logs_in_but_cannot_act registry (window _) "  " "secret"
              eq_refl Hc) as (app' & H1 & H2 & _ & H4).
  refine (conj eq_refl (conj Hc (ex_intro _ app' (conj H1 (conj H2 _))))).
  destruct (H4 "whoami" 0 sample_rnd) as (H5 & H6 & _). exact (conj H5 H6).
Defined.



(** ** The Discord template *)

Example format_test_vectors :
  let kwargs := [("token", "T"); ("prefix", "!")] in
  let render := fun _ _ _ _ => Raise (TypeError "render") in
  str_format.format kwargs render "a {token} b {prefix}{{}}" = Ok "a T b !{}"
  /\ str_format.format kwargs render "{token" = Raise (ValueError "expected '}' before end of string")
  /\ str_format.format kwargs render "}" = Raise (ValueError "Single '}' encountered in format string")
  /\ str_format.format kwargs render "{}" =
     Raise (OtherException "IndexError" "Replacement index 0 out of range for positional args tuple")
  /\ str_format.format kwargs render "{it's}" = Raise (OtherException "KeyError" (in_quotes "it's"))
  /\ str_format.format kwargs render "{token.x}" = Raise (TypeError "render")
  /\ str_format.format kwargs render "{user[}]}" = Raise (OtherException "KeyError" "'user'").
Proof. cbv zeta. repeat split; vm_compute; reflexivity. Qed.

Example texts_are_those_of_the_source :
  map (fun text => hashlib.hexdigest (encode text))
    [DiscordBotCreator.template;
     DiscordBotCreator.get_moderation_commands;
     DiscordBotCreator.get_music_commands;
     DiscordBotCreator.get_ai_chat_commands;
     DiscordBotCreator.get_game_commands;
     DiscordBotCreator.get_utility_commands]
  = ["238cfb026eef68519620e8fa903809bd75596c7cc3937a6c07604e8f99fa686f";
     "66d4f77ebbcb8b45f2e93ff99fbfa8796db8dbc6119458f67b3d8c2596ae8e82";
     "78f7237675f3d192fbbeb3170ba9fb091e2956aee59a931e8c50aec468ab61d0";
     "47f72dfe4f03e05e9f9a3403000e45b7a149d1852b4d4156b25508578e05db65";
     "17e254a0c41e29e14c116f8d2f6bdbe48e2f66ed4ae03b3aac73e5335c3d1793";
     "2f8da2baeb01421135a11c41ee0096c84cf5d1fb069c09137d36cc4e33d22c57"].
Proof. vm_compute. reflexivity. Qed.

(** X25. [create_discord_bot] never returns the code of a bot: whatever the
    name, prefix, token and features, formatting the template stops at the
    braces of the f-string [{bot.user}] it contains, which [format] reads as
    a field named [bot], and raises [KeyError: 'bot'].  No feature block is
    ever appended. *)
Theorem create_discord_bot_always_raises_KeyError render bot_name prefix token features :
  DiscordBotCreator.create_discord_bot render bot_name prefix token features
  = Raise (OtherException "KeyError" "'bot'").
Proof.
  unfold DiscordBotCreator.create_discord_bot.
  assert (Hformat :
    str_format.format [("token", token); ("prefix", prefix)] render
      DiscordBotCreator.template
    = Raise (OtherException "KeyError" "'bot'")) by (vm_compute; reflexivity).
  rewrite Hformat. reflexivity.
Qed.
